(** * Temp-mail bot: the mailbox polling and delivery core of [main.py]

    A shallow embedding of [make_random_username], [fetch_mailcx],
    [cmd_generate], [callback_view_message] and [poll_inboxes], with the
    outside world (mail provider, chat platform, random source) as oracles,
    and the properties of the specification proved over it. *)

From Stdlib Require Import String Ascii.
From stdpp Require Import base decidable countable gmap sets list.

Open Scope Z_scope.

(** ** Python values *)

(** A Python [str] is the list of its code points, so that [len] is [length]
    and slicing is [take].  The addresses that reach [urllib.parse.quote]
    are those [cmd_generate] made, directly or through the token of a
    button; lone surrogates, which UTF-8 cannot encode, do not occur in
    them and are left out of the model. *)
Abbreviation str := (list N).

Definition lit (s : string) : str :=
  (λ a, N_of_ascii a) <$> list_ascii_of_string s.

#[local] Set Warnings "-register-all".

(** What [json.loads] builds (numbers restricted to Python [int]); a [dict]
    keeps its insertion order. *)
Inductive pyval :=
| PNone
| PBool (b : bool)
| PInt (z : Z)
| PStr (s : str)
| PList (l : list pyval)
| PDict (d : list (str * pyval)).

Inductive exn :=
| ClientError (cause : str)   (* aiohttp / asyncio.TimeoutError *)
| ContentTypeError            (* resp.json() on a body that is not JSON *)
| TelegramError               (* raised by bot.send_message *)
| AttributeError
| TypeError
| ValueError.

(** [d.get(key)] on the association list of a dict. *)
Fixpoint dict_get (d : list (str * pyval)) (key : str) : option pyval :=
  match d with
  | [] => None
  | (k, v) :: d' => if decide (k = key) then Some v else dict_get d' key
  end.

(** [key in d] *)
Definition dict_has (d : list (str * pyval)) (key : str) : bool :=
  bool_decide (is_Some (dict_get d key)).

(** Truth value of an object, as tested by [not mid] and [if message_id]. *)
Definition py_truthy (v : pyval) : bool :=
  match v with
  | PNone => false
  | PBool b => b
  | PInt z => negb (z =? 0)
  | PStr s => negb (bool_decide (s = []))
  | PList l => match l with [] => false | _ => true end
  | PDict d => match d with [] => false | _ => true end
  end.

(** Elements of a [set]: hashable values up to Python equality, under which
    [True == 1] and [False == 0]. *)
Inductive pykey :=
| KNone
| KInt (z : Z)
| KStr (s : str).

#[global] Instance pykey_eq_dec : EqDecision pykey.
Proof. solve_decision. Defined.

#[global] Instance pykey_countable : Countable pykey.
Proof.
  refine (inj_countable'
    (λ k, match k with
          | KNone => inl tt
          | KInt z => inr (inl z)
          | KStr s => inr (inr s)
          end)
    (λ x, match x with
          | inl _ => KNone
          | inr (inl z) => KInt z
          | inr (inr s) => KStr s
          end) _).
  by intros [].
Defined.

(** [hash(v)]: lists and dicts are unhashable ([TypeError]). *)
Definition py_hash (v : pyval) : option pykey :=
  match v with
  | PNone => Some KNone
  | PBool b => Some (KInt (if b then 1 else 0))
  | PInt z => Some (KInt z)
  | PStr s => Some (KStr s)
  | PList _ | PDict _ => None
  end.

(** ** Configuration *)

Definition MAILCX_API_BASE : str := lit "https://mail.cx/api/api/v1/mailbox/".
Definition DEFAULT_DOMAIN : str := lit "nqmo.com".
Definition USERNAME_MIN : nat := 6.
Definition USERNAME_MAX : nat := 7.

Definition NL : str := [10%N].
Definition SEP : N := 124%N.   (* the separator "|" *)

(** ** String helpers of the standard library used by the code *)

Definition ascii_lowercase : str := lit "abcdefghijklmnopqrstuvwxyz".
Definition digits : str := lit "0123456789".

Definition is_lower (c : N) : bool := ((97 <=? c) && (c <=? 122))%N.
Definition is_digit (c : N) : bool := ((48 <=? c) && (c <=? 57))%N.
Definition is_upper (c : N) : bool := ((65 <=? c) && (c <=? 90))%N.

Fixpoint lstrip_slash (s : str) : str :=
  match s with
  | c :: s' => if decide (c = 47%N) then lstrip_slash s' else s
  | [] => []
  end.

(** [s.rstrip("/")] *)
Definition rstrip_slash (s : str) : str :=
  reverse (lstrip_slash (reverse s)).

(** UTF-8 bytes of a code point. *)
Definition utf8 (c : N) : list N :=
  (if c <? 0x80 then [c]
   else if c <? 0x800 then [0xC0 + c / 64; 0x80 + c mod 64]
   else if c <? 0x10000 then
     [0xE0 + c / 4096; 0x80 + (c / 64) mod 64; 0x80 + c mod 64]
   else
     [0xF0 + c / 262144; 0x80 + (c / 4096) mod 64;
      0x80 + (c / 64) mod 64; 0x80 + c mod 64])%N.

Definition hex_digit (n : N) : N :=
  (if n <? 10 then 48 + n else 55 + n)%N.

Definition percent (b : N) : str :=
  [37%N; hex_digit (b / 16)%N; hex_digit (b mod 16)%N].

(** Characters [quote] never escapes: letters, digits and [_.-~]. *)
Definition unreserved (c : N) : bool :=
  is_lower c || is_upper c || is_digit c
  || bool_decide (c ∈ [95; 46; 45; 126]%N).

(** [urllib.parse.quote(s, safe="")] *)
Definition quote (s : str) : str :=
  c ← s; if unreserved c then [c] else b ← utf8 c; percent b.

(** [s.split("|", 1)]: at most one split, at the first separator. *)
Fixpoint split1 (s : str) : list str :=
  match s with
  | [] => [[]]
  | c :: s' =>
      if decide (c = SEP) then [[]; s']
      else match split1 s' with
           | a :: rest => (c :: a) :: rest
           | [] => [[c]]
           end
  end.

(** [s[:n]] *)
Definition slice_to (n : nat) (s : str) : str := take n s.


(** ** The world outside and the interpreter state *)

(** A [set] object lives in the heap and is named by its location: the
    snapshot of a pass and the registry hold the same object. *)
Definition loc := nat.

(** [{"email": ..., "seen": set()}] *)
Record mailbox := Mailbox { email : str; seen : loc }.

(** What one [session.get] gives: an exception of the transport (its text is
    [str(e)]), or a response with its status, its text and what
    [resp.json()] makes of it ([None] when it raises). *)
Inductive http_outcome :=
| TransportError (cause : str)
| Response (status : Z) (text : str) (json : option pyval).

(** One [bot.send_message] call; [s_sub] and [s_mid] are ghost fields naming
    the subscription and the message id the call was made for. *)
Record send_call := SendCall {
  s_chat : Z; s_text : str; s_data : str;
  s_sub : loc; s_mid : pyval; s_ok : bool }.

Record world := World {
  USER_MAILBOXES : list (Z * mailbox);   (* the module-level dict *)
  heap : gmap loc (gset pykey);          (* the [seen] sets *)
  net_log : list str;                    (* urls requested, newest first *)
  send_log : list send_call;             (* notifications, newest first *)
  ui_log : list str;                     (* texts replied or edited in *)
  error_log : list Z }.                  (* [logger.error], by user *)

Definition empty_world : world := World [] ∅ [] [] [] [].

Definition get_set (w : world) (l : loc) : gset pykey :=
  default ∅ (heap w !! l).

Inductive result (A : Type) :=
| Ok (a : A)
| Raise (e : exn).
Arguments Ok {A} a.
Arguments Raise {A} e.

(** Computations over the world that return or raise. *)
Definition M (A : Type) : Type := world → result A * world.

Definition ret {A} (a : A) : M A := λ w, (Ok a, w).
Definition raise {A} (e : exn) : M A := λ w, (Raise e, w).

Definition bind {A B} (m : M A) (k : A → M B) : M B :=
  λ w, match m w with
       | (Ok a, w') => k a w'
       | (Raise e, w') => (Raise e, w')
       end.

Notation "'do' x <- m ; k" := (bind m (λ x, k))
  (at level 10, x name, m at level 100, k at level 200).
Notation "m ;; k" := (bind m (λ _, k))
  (at level 100, k at level 200, right associativity).

(** [try: m  except <those e with h e = Some _>: h e] *)
Definition try_except {A} (m : M A) (h : exn → option (M A)) : M A :=
  λ w, match m w with
       | (Ok a, w') => (Ok a, w')
       | (Raise e, w') =>
           match h e with
           | Some k => k w'
           | None => (Raise e, w')
           end
       end.

(** [for x in l: body x] *)
Fixpoint for_each {A} (body : A → M unit) (l : list A) : M unit :=
  match l with
  | [] => ret tt
  | x :: l' => body x ;; for_each body l'
  end.

(** Iterating a value: a list gives its items, a dict its keys, a str its
    characters; nothing else is iterable. *)
Definition py_iter (v : pyval) : M (list pyval) :=
  match v with
  | PList l => ret l
  | PDict d => ret ((λ kv, PStr kv.1) <$> d)
  | PStr s => ret ((λ c, PStr [c]) <$> s)
  | _ => raise TypeError
  end.

(** [v.get(key, dflt)]: only a dict has the method. *)
Definition py_get (v : pyval) (key : str) (dflt : pyval) : M pyval :=
  match v with
  | PDict d => ret (default dflt (dict_get d key))
  | _ => raise AttributeError
  end.

(** [v in seen] *)
Definition set_contains (l : loc) (v : pyval) : M bool :=
  λ w, match py_hash v with
       | Some k => (Ok (bool_decide (k ∈ get_set w l)), w)
       | None => (Raise TypeError, w)
       end.

Definition heap_add (l : loc) (k : pykey) (w : world) : world :=
  World (USER_MAILBOXES w) (<[l := {[k]} ∪ get_set w l]> (heap w))
        (net_log w) (send_log w) (ui_log w) (error_log w).

(** [seen.add(v)] *)
Definition set_add (l : loc) (v : pyval) : M unit :=
  λ w, match py_hash v with
       | Some k => (Ok tt, heap_add l k w)
       | None => (Raise TypeError, w)
       end.

(** [set()]: a new object, at a location not in use. *)
Definition new_set : M loc :=
  λ w, let l := fresh (dom (heap w)) in
       (Ok l,
        World (USER_MAILBOXES w) (<[l := ∅]> (heap w))
              (net_log w) (send_log w) (ui_log w) (error_log w)).

(** [d[key] = v] on an insertion-ordered dict: a present key keeps its place. *)
Fixpoint dict_set {V} (d : list (Z * V)) (key : Z) (v : V) : list (Z * V) :=
  match d with
  | [] => [(key, v)]
  | (k, x) :: d' =>
      if decide (k = key) then (k, v) :: d' else (k, x) :: dict_set d' key v
  end.

(** [USER_MAILBOXES[user_id] = data] *)
Definition mailboxes_set (user_id : Z) (data : mailbox) : M unit :=
  λ w, (Ok tt,
        World (dict_set (USER_MAILBOXES w) user_id data) (heap w)
              (net_log w) (send_log w) (ui_log w) (error_log w)).

(** [list(USER_MAILBOXES.items())] *)
Definition mailboxes_items : M (list (Z * mailbox)) :=
  λ w, (Ok (USER_MAILBOXES w), w).

Definition log_request (url : str) (w : world) : world :=
  World (USER_MAILBOXES w) (heap w) (url :: net_log w) (send_log w)
        (ui_log w) (error_log w).

Definition log_send (c : send_call) (w : world) : world :=
  World (USER_MAILBOXES w) (heap w) (net_log w) (c :: send_log w)
        (ui_log w) (error_log w).

Definition log_text (text : str) (w : world) : world :=
  World (USER_MAILBOXES w) (heap w) (net_log w) (send_log w)
        (text :: ui_log w) (error_log w).

Definition log_error (user_id : Z) (w : world) : world :=
  World (USER_MAILBOXES w) (heap w) (net_log w) (send_log w)
        (ui_log w) (user_id :: error_log w).

(** [reply_text] and [edit_message_text]: the text shown to the user. *)
Definition show_text (text : str) : M unit := λ w, (Ok tt, log_text text w).

(** [logger.error(f"Failed to send message to {user_id}: {e}")] *)
Definition logger_error (user_id : Z) : M unit :=
  λ w, (Ok tt, log_error user_id w).

(** [query.answer()] *)
Definition query_answer : M unit := ret tt.

(** [random.choice(l)] with the draw [r]. *)
Definition random_choice {A} (r : nat) (l : list A) (d : A) : A :=
  default d (l !! (r `mod` length l)%nat).

Definition make_random_username (rnd : nat → nat) : str :=
  let length := random_choice (rnd 0%nat) [USERNAME_MIN; USERNAME_MAX] 0%nat in
  let alphabet := ascii_lowercase ++ digits in
  let first := random_choice (rnd 1%nat) ascii_lowercase 0%N in
  let rest := (λ i, random_choice (rnd (2 + i)%nat) alphabet 0%N)
                <$> seq 0 (length - 1) in
  first :: rest.

Definition address_of (username : str) : str :=
  username ++ lit "@" ++ DEFAULT_DOMAIN.

Definition NO_SUBJECT : pyval := PStr (lit "(no subject)").
Definition UNKNOWN : pyval := PStr (lit "unknown").
Definition NO_BODY : pyval := PStr (lit "(no body)").
Definition INVALID_DATA : str := [0x274C%N] ++ lit " Invalid data".
Definition TRUNCATED : str := NL ++ lit "...truncated...".
Definition TEXT_LIMIT : nat := 3800.

(** The reply of [cmd_generate], with [POLL_INTERVAL] = 10 filled in. *)
Definition generate_reply (email : str) : str :=
  [0x2705%N] ++ lit " Your temp mail: `" ++ email ++ lit "`" ++ NL ++ NL
    ++ lit "I" ++ [0x2019%N]
    ++ lit "ll notify you when new mails arrive (checked every 10s).".

Section Model.

(** [str(v)] of a value that is not a str (its [repr]). *)
Variable py_repr : pyval → str.
(** The provider's answer to the n-th request of the run. *)
Variable provider : nat → str → http_outcome.
(** Whether the n-th [send_message] of the run goes through. *)
Variable sink : nat → bool.

Definition py_str (v : pyval) : str :=
  match v with
  | PStr s => s
  | _ => py_repr v
  end.

(** [session.get(url, timeout=15)] followed by [resp.text()]. *)
Definition session_get (url : str) : M (str * option pyval) :=
  λ w,
    let w' := log_request url w in
    match provider (length (net_log w)) url with
    | TransportError cause => (Raise (ClientError cause), w')
    | Response _ text json => (Ok (text, json), w')
    end.

(** [resp.json()] *)
Definition resp_json (json : option pyval) : M pyval :=
  match json with
  | Some v => ret v
  | None => raise ContentTypeError
  end.

(** [str(e)] *)
Definition exn_str (e : exn) : str :=
  match e with
  | ClientError cause => cause
  | ContentTypeError => lit "ContentTypeError"
  | TelegramError => lit "TelegramError"
  | AttributeError => lit "AttributeError"
  | TypeError => lit "TypeError"
  | ValueError => lit "ValueError"
  end.

Definition mailbox_url (email : str) (message_id : option str) : str :=
  let encoded := quote email in
  let url := rstrip_slash MAILCX_API_BASE ++ lit "/" ++ encoded in
  match message_id with
  | Some (c :: id) => url ++ lit "/" ++ c :: id
  | _ => url
  end.

Definition fetch_mailcx (email : str) (message_id : option str) : M pyval :=
  let url := mailbox_url email message_id in
  try_except
    (do resp <- session_get url;
     let '(text, json) := resp in
     try_except (resp_json json) (λ _, Some (ret (PStr text))))
    (λ e, Some (ret (PDict [(lit "error", PStr (exn_str e))]))).

(** [bot.send_message(user_id, text, reply_markup=<button with data>)] *)
Definition send_message
    (user_id : Z) (text data : str) (sub : loc) (mid : pyval) : M unit :=
  λ w,
    let ok := sink (length (send_log w)) in
    let w' := log_send (SendCall user_id text data sub mid ok) w in
    (if ok then Ok tt else Raise TelegramError, w').

Definition cmd_generate (user_id : Z) (rnd : nat → nat) : M unit :=
  let username := make_random_username rnd in
  let email := address_of username in
  do s <- new_set;
  mailboxes_set user_id (Mailbox email s) ;;
  show_text (generate_reply email).

Definition render (data : pyval) : str :=
  match data with
  | PDict d =>
      let subj := default NO_SUBJECT (dict_get d (lit "subject")) in
      let frm := default UNKNOWN (dict_get d (lit "from")) in
      let body := default NO_BODY (dict_get d (lit "body")) in
      lit "*Subject:* " ++ py_str subj ++ NL
        ++ lit "*From:* " ++ py_str frm ++ NL ++ NL ++ py_str body
  | _ => py_str data
  end.

Definition truncate (text : str) : str :=
  if decide (TEXT_LIMIT < length text)%nat
  then slice_to TEXT_LIMIT text ++ TRUNCATED
  else text.

(** [email, mid = parts] *)
Definition unpack2 (parts : list str) : M (str * str) :=
  match parts with
  | [a; b] => ret (a, b)
  | _ => raise ValueError
  end.

Definition callback_view_message (data : str) : M unit :=
  query_answer ;;
  do parts <-
    try_except
      (do p <- unpack2 (split1 data); ret (Some p))
      (λ e, match e with ValueError => Some (ret None) | _ => None end);
  match parts with
  | None => show_text INVALID_DATA
  | Some (email, mid) =>
      do data <- fetch_mailcx email (Some mid);
      show_text (truncate (render data))
  end.

Definition notification (msg_subj msg_frm msg_date : pyval) : str :=
  [0x2709%N; 0xFE0F%N] ++ lit " *New Mail!*" ++ NL ++ NL
    ++ lit "*Subject:* " ++ py_str msg_subj ++ NL
    ++ lit "*From:* " ++ py_str msg_frm ++ NL
    ++ lit "*Date:* " ++ py_str msg_date.

(** The body of [for msg in messages]. *)
Definition process_message
    (user_id : Z) (email : str) (seen : loc) (msg : pyval) : M unit :=
  do mid <- py_get msg (lit "id") PNone;
  do skip <- (if negb (py_truthy mid) then ret true
              else set_contains seen mid);
  if skip : bool then ret tt
  else
    do subj <- py_get msg (lit "subject") NO_SUBJECT;
    do frm <- py_get msg (lit "from") UNKNOWN;
    do date <- py_get msg (lit "date") (PStr []);
    let text := notification subj frm date in
    let data := email ++ [SEP] ++ py_str mid in
    try_except
      (send_message user_id text data seen mid ;;
       set_add seen mid)
      (λ _, Some (logger_error user_id)).

(** Which value the loop iterates, if any: [mails["messages"]] of a dict
    that has the key, a list itself, and otherwise [continue]. *)
Definition select_messages (mails : pyval) : option pyval :=
  match mails with
  | PDict d =>
      if dict_has d (lit "messages") then dict_get d (lit "messages")
      else None
  | PList _ => Some mails
  | _ => None
  end.

(** The body of [for user_id, data in list(USER_MAILBOXES.items())]. *)
Definition poll_subscription (entry : Z * mailbox) : M unit :=
  let '(user_id, data) := entry in
  do mails <- fetch_mailcx (email data) None;
  match select_messages mails with
  | Some messages =>
      do items <- py_iter messages;
      for_each (process_message user_id (email data) (seen data)) items
  | None => ret tt
  end.

(** One pass of the [while True] loop (the sleep changes nothing). *)
Definition poll_tick : M unit :=
  do snapshot <- mailboxes_items;
  for_each poll_subscription snapshot.

(** The loop, run for a number of passes; it has no exit of its own. *)
Fixpoint poll_inboxes (ticks : nat) : M unit :=
  match ticks with
  | O => ret tt
  | S n => poll_tick ;; poll_inboxes n
  end.

(** *** The process: handlers and the background task, interleaved *)

(** Where the background task stands: about to take the snapshot of a
    pass, in a pass with entries of its snapshot still to poll, or ended by
    an exception. *)
Inductive task :=
| Idle
| Polling (pending : list (Z * mailbox))
| Crashed (e : exn).

Record system := System { sys_world : world; poll_task : task }.

(** The task gives way to the handlers where it awaits; between two moves
    of it any handler may run. *)
Inductive action :=
| Generate (user_id : Z) (rnd : nat → nat)
| View (data : str)
| Poll.

(** One move of [poll_inboxes]: take the snapshot, poll the next entry of
    it, or sleep at its end. *)
Definition poll_step (s : system) : system :=
  match poll_task s with
  | Idle => System (sys_world s) (Polling (USER_MAILBOXES (sys_world s)))
  | Polling [] => System (sys_world s) Idle
  | Polling (entry :: rest) =>
      match poll_subscription entry (sys_world s) with
      | (Ok _, w) => System w (Polling rest)
      | (Raise e, w) => System w (Crashed e)
      end
  | Crashed _ => s
  end.

Definition step (s : system) (a : action) : system :=
  match a with
  | Generate u rnd =>
      System (cmd_generate u rnd (sys_world s)).2 (poll_task s)
  | View data =>
      System (callback_view_message data (sys_world s)).2 (poll_task s)
  | Poll => poll_step s
  end.

Definition run (s : system) (acts : list action) : system :=
  foldl step s acts.

Definition boot : system := System empty_world Idle.


End Model.

Arguments lit : simpl never.

(** ** Notions used to state the properties *)

(** What [fetch_mailcx] hands back for each outcome of the request. *)
Definition fetched (out : http_outcome) : pyval :=
  match out with
  | TransportError cause => PDict [(lit "error", PStr cause)]
  | Response _ _ (Some v) => v
  | Response _ text None => PStr text
  end.



(** [sub] occurs in [s]. *)
Definition contains (sub s : str) : Prop :=
  ∃ pre post, s = pre ++ sub ++ post.

(** The [send_message] call the loop makes for the message [PDict d] with
    id [mid] of a subscription. *)
Definition attempt (py_repr : pyval → str)
    (user_id : Z) (email : str) (sub : loc)
    (d : list (str * pyval)) (mid : pyval) (ok : bool) : send_call :=
  SendCall user_id
    (notification py_repr
       (default NO_SUBJECT (dict_get d (lit "subject")))
       (default UNKNOWN (dict_get d (lit "from")))
       (default (PStr []) (dict_get d (lit "date"))))
    (email ++ [SEP] ++ py_str py_repr mid) sub mid ok.

(** Every notification that went through is in the delivered set of its
    subscription. *)
Definition marked (w : world) : Prop :=
  ∀ c, c ∈ send_log w → s_ok c = true →
       ∃ k, py_hash (s_mid c) = Some k ∧ k ∈ get_set w (s_sub c).

(** No [send_message] for a (subscription, id) pair comes after one that
    went through for it (the log has the newest call first). *)
Fixpoint once_only (log : list send_call) : Prop :=
  match log with
  | [] => True
  | c :: older =>
      (∀ c', c' ∈ older → s_ok c' = true → s_sub c' = s_sub c →
             py_hash (s_mid c') ≠ py_hash (s_mid c))
      ∧ once_only older
  end.

Definition bookkeeping (w : world) : Prop :=
  marked w ∧ once_only (send_log w).

(** The registry has one entry per subscriber and refers to live sets. *)
Definition registry_ok (w : world) : Prop :=
  NoDup (USER_MAILBOXES w).*1
  ∧ ∀ u mb, (u, mb) ∈ USER_MAILBOXES w → seen mb ∈ dom (heap w).

(** The entries of a snapshot that belong to [user_id]. *)
Definition entries_of (user_id : Z) (snapshot : list (Z * mailbox))
  : list (Z * mailbox) :=
  filter (λ e, e.1 = user_id) snapshot.


(** What the loop over the messages leaves alone: the registry, the request
    log, the texts shown, and the sets that exist. *)
Definition framed (reg : list (Z * mailbox)) (net ui : list str)
    (live : gset loc) (w : world) : Prop :=
  USER_MAILBOXES w = reg ∧ net_log w = net ∧ ui_log w = ui
  ∧ live ⊆ dom (heap w).

(** A property of the world that a computation keeps, return or raise. *)
Definition preserves {A} (P : world → Prop) (m : M A) : Prop :=
  ∀ w, P w → P (m w).2.

(** ** Sample inputs *)

Definition sample_repr (v : pyval) : str :=
  match v with
  | PNone => lit "None"
  | PBool true => lit "True"
  | PBool false => lit "False"
  | _ => lit "..."
  end.

(** Draws that make [make_random_username] give [abc123]. *)
Definition rnd_abc123 (n : nat) : nat :=
  match n with
  | 2 => 1 | 3 => 2 | 4 => 27 | 5 => 28 | 6 => 29 | _ => 0
  end%nat.

Definition addr_abc123 : str := lit "abc123@nqmo.com".

(** [{"id": "m1", "subject": "Hi", "from": "x@y.com"}] *)
Definition msg_m1 : list (str * pyval) :=
  [(lit "id", PStr (lit "m1")); (lit "subject", PStr (lit "Hi"));
   (lit "from", PStr (lit "x@y.com"))].

(** A provider that always answers [{"messages": [msg_m1]}]. *)
Definition provider_m1 : nat → str → http_outcome :=
  λ _ _, Response 200 [] (Some (PDict [(lit "messages", PList [PDict msg_m1])])).

(** A provider whose requests all time out. *)
Definition provider_timeout : nat → str → http_outcome :=
  λ _ _, TransportError (lit "TimeoutError").


(** A provider answering [["oops"]]: a list whose entry is not an object. *)
Definition provider_oops : nat → str → http_outcome :=
  λ _ _, Response 200 [] (Some (PList [PStr (lit "oops")])).

(** A provider answering [{"messages": null}]. *)
Definition provider_null : nat → str → http_outcome :=
  λ _ _, Response 200 [] (Some (PDict [(lit "messages", PNone)])).

(** A provider answering [{"subject": "S", "from": "F", "body": "B"}]. *)
Definition provider_sfb : nat → str → http_outcome :=
  λ _ _, Response 200 []
    (Some (PDict [(lit "subject", PStr (lit "S")); (lit "from", PStr (lit "F"));
                  (lit "body", PStr (lit "B"))])).

(** Draws that make [make_random_username] give [zzzzzzz]. *)
Definition rnd_zzzzzzz (n : nat) : nat := 25.

Definition sink_ok : nat → bool := λ _, true.

(** A sink whose first call fails and whose later calls go through. *)
Definition sink_flaky : nat → bool := λ n, negb (Nat.eqb n 0).

(** The world after subscriber 42 was given [abc123@nqmo.com]. *)
Definition world_42 : world := (cmd_generate 42 rnd_abc123 empty_world).2.

(** A provider answering with a page that is not JSON. *)
Definition provider_text : nat → str → http_outcome :=
  λ _ _, Response 404 (lit "Not Found") None.

(** ** The start command, and notions for further properties *)

Definition POLL_INTERVAL : nat := 10.



(** A Unicode code point. *)
Definition is_code_point (c : N) : Prop := (c < 0x110000)%N.

(** A character that stands for itself in a path segment, or [%]. *)
Definition url_safe (c : N) : Prop := unreserved c = true ∨ c = 37%N.

(** [msg.get("id")] of a message that is an object. *)
Definition msg_id (msg : pyval) : pyval :=
  match msg with
  | PDict d => default PNone (dict_get d (lit "id"))
  | _ => PNone
  end.

(** A message the loop can handle: an object whose id is absent, falsy or
    hashable. *)
Definition well_formed_message (msg : pyval) : Prop :=
  (∃ d, msg = PDict d)
  ∧ (py_truthy (msg_id msg) = false ∨ is_Some (py_hash (msg_id msg))).

(** A payload the loop can handle: one it skips, or a list of such
    messages. *)
Definition well_formed_payload (mails : pyval) : Prop :=
  select_messages mails = None
  ∨ ∃ msgs, select_messages mails = Some (PList msgs)
            ∧ Forall well_formed_message msgs.

(** The users of the failed calls of a log. *)
Definition failed_users (log : list send_call) : list Z :=
  s_chat <$> filter (λ c, s_ok c = false) log.

(** No two entries of the registry share a delivered set, and every address
    in it came out of the generator. *)
Definition registry_sound (w : world) : Prop :=
  registry_ok w
  ∧ NoDup ((λ e, seen e.2) <$> USER_MAILBOXES w)
  ∧ Forall (λ e, ∃ rnd, email e.2 = address_of (make_random_username rnd))
           (USER_MAILBOXES w).

(** ** Properties *)

Section Properties.

Variable py_repr : pyval → str.
Variable provider : nat → str → http_outcome.
Variable sink : nat → bool.

Abbreviation fetch_mailcx := (fetch_mailcx provider).
Abbreviation process_message := (process_message py_repr sink).
Abbreviation poll_subscription := (poll_subscription py_repr provider sink).
Abbreviation poll_tick := (poll_tick py_repr provider sink).
Abbreviation poll_step := (poll_step py_repr provider sink).
Abbreviation callback_view_message := (callback_view_message py_repr provider).
Abbreviation notification := (notification py_repr).
Abbreviation py_str := (py_str py_repr).
Abbreviation render := (render py_repr).
Abbreviation step := (step py_repr provider sink).
Abbreviation run := (run py_repr provider sink).
Abbreviation attempt := (attempt py_repr).

(** *** The monad *)

Lemma preserves_ret {A} P (a : A) : preserves P (ret a).
Proof. by intros w. Qed.


Lemma preserves_bind {A B} P (m : M A) (k : A → M B) :
  preserves P m → (∀ a, preserves P (k a)) → preserves P (bind m k).
Proof.
  intros Hm Hk w Hw. unfold bind. specialize (Hm w Hw).
  destruct (m w) as [[a|e] w']; simpl in *; [by apply Hk | done].
Qed.


Lemma preserves_for_each {A} P (body : A → M unit) l :
  (∀ x, preserves P (body x)) → preserves P (for_each body l).
Proof.
  intros Hb. induction l as [|x l IH]; simpl.
  - apply preserves_ret.
  - apply preserves_bind; auto.
Qed.

(** *** The provider client *)

Lemma fetch_mailcx_eq email message_id w :
  fetch_mailcx email message_id w =
    (Ok (fetched (provider (length (net_log w))
                           (mailbox_url email message_id))),
     log_request (mailbox_url email message_id) w).
Proof.
  unfold fetch_mailcx, try_except, bind, session_get.
  by destruct (provider _ _) as [c|st text [v|]].
Qed.

(** *** One message of the loop *)

Lemma process_message_falsy user_id email sub d w :
  py_truthy (default PNone (dict_get d (lit "id"))) = false →
  process_message user_id email sub (PDict d) w = (Ok tt, w).
Proof.
  intros H. unfold process_message, bind, py_get, ret. by rewrite H.
Qed.

Lemma process_message_seen user_id email sub d mid k w :
  dict_get d (lit "id") = Some mid → py_hash mid = Some k →
  k ∈ get_set w sub →
  process_message user_id email sub (PDict d) w = (Ok tt, w).
Proof.
  intros Hd Hk Hin. unfold process_message, bind, py_get, ret, set_contains.
  rewrite Hd. simpl. destruct (py_truthy mid); simpl; [|done].
  rewrite Hk. by rewrite bool_decide_eq_true_2.
Qed.

Lemma process_message_new user_id email sub d mid k w :
  dict_get d (lit "id") = Some mid → py_truthy mid = true →
  py_hash mid = Some k → k ∉ get_set w sub →
  process_message user_id email sub (PDict d) w =
    let ok := sink (length (send_log w)) in
    let w' := log_send (attempt user_id email sub d mid ok) w in
    (Ok tt, if ok then heap_add sub k w' else log_error user_id w').
Proof.
  intros Hd Ht Hk Hin.
  unfold process_message, bind, py_get, ret, set_contains, try_except,
    send_message, set_add, logger_error.
  rewrite Hd. simpl. rewrite Ht. simpl. rewrite Hk.
  rewrite bool_decide_eq_false_2 by done.
  by destruct (sink _).
Qed.

Lemma process_message_unhashable user_id email sub d mid w :
  dict_get d (lit "id") = Some mid → py_truthy mid = true →
  py_hash mid = None →
  process_message user_id email sub (PDict d) w = (Raise TypeError, w).
Proof.
  intros Hd Ht Hk. unfold process_message, bind, py_get, ret, set_contains.
  rewrite Hd. simpl. rewrite Ht. simpl. by rewrite Hk.
Qed.

Lemma process_message_not_dict user_id email sub msg w :
  (∀ d, msg ≠ PDict d) →
  process_message user_id email sub msg w = (Raise AttributeError, w).
Proof. intros H. destruct msg; try done. by destruct (H d). Qed.

(** Either the world is as before, or the message is a new one. *)
Lemma process_message_cases user_id email sub msg w :
  (process_message user_id email sub msg w).2 = w
  ∨ ∃ d mid k, msg = PDict d ∧ dict_get d (lit "id") = Some mid
      ∧ py_truthy mid = true ∧ py_hash mid = Some k
      ∧ k ∉ get_set w sub.
Proof.
  destruct msg as [| | | | |d]; try (by left).
  destruct (dict_get d (lit "id")) as [mid|] eqn:Hd.
  - destruct (py_truthy mid) eqn:Ht.
    + destruct (py_hash mid) as [k|] eqn:Hk.
      * destruct (decide (k ∈ get_set w sub)) as [Hin|Hin].
        -- left. by erewrite process_message_seen.
        -- right. by exists d, mid, k.
      * left. by erewrite process_message_unhashable.
    + left. rewrite process_message_falsy; [done|]. by rewrite Hd.
  - left. rewrite process_message_falsy; [done|]. by rewrite Hd.
Qed.

(** C4: a message without an [id] (the field is absent, or null) is
    skipped: no notification, no change of the delivered set or of anything
    else, no exception, and the loop goes on with the messages after it. *)
Theorem message_without_id_skipped user_id email sub d w rest :
  dict_get d (lit "id") = None ∨ dict_get d (lit "id") = Some PNone →
  process_message user_id email sub (PDict d) w = (Ok tt, w)
  ∧ for_each (process_message user_id email sub) (PDict d :: rest) w
    = for_each (process_message user_id email sub) rest w.
Proof.
  intros Hd.
  assert (H : process_message user_id email sub (PDict d) w = (Ok tt, w)).
  { apply process_message_falsy. by destruct Hd as [-> | ->]. }
  split; [done|]. simpl. unfold bind at 1. by rewrite H.
Qed.

(** *** The delivered sets only grow, and the log agrees with them *)

Lemma get_set_heap_add l k w l' :
  get_set (heap_add l k w) l' =
    if decide (l = l') then {[k]} ∪ get_set w l else get_set w l'.
Proof.
  unfold get_set, heap_add. simpl. rewrite lookup_insert.
  by destruct (decide (l = l')) as [->|].
Qed.

Lemma get_set_new_set w l : get_set (new_set w).2 l = get_set w l.
Proof.
  unfold get_set, new_set. simpl. rewrite lookup_insert.
  destruct (decide (fresh (dom (heap w)) = l)) as [<-|]; [|done].
  pose proof (is_fresh (dom (heap w))) as Hf.
  apply not_elem_of_dom in Hf. by rewrite Hf.
Qed.

Lemma bookkeeping_same w w' :
  send_log w' = send_log w → (∀ l, get_set w' l = get_set w l) →
  bookkeeping w → bookkeeping w'.
Proof.
  intros Hlog Hset [Hm Ho]. split.
  - intros c Hc Hok. rewrite Hlog in Hc.
    destruct (Hm c Hc Hok) as (k & Hk & Hin). exists k. by rewrite Hset.
  - by rewrite Hlog.
Qed.

Lemma bookkeeping_attempt user_id c k w :
  py_hash (s_mid c) = Some k → k ∉ get_set w (s_sub c) →
  bookkeeping w →
  bookkeeping (if s_ok c then heap_add (s_sub c) k (log_send c w)
               else log_error user_id (log_send c w)).
Proof.
  intros Hk Hnew [Hm Ho].
  assert (Hfresh : ∀ c', c' ∈ send_log w → s_ok c' = true →
            s_sub c' = s_sub c → py_hash (s_mid c') ≠ py_hash (s_mid c)).
  { intros c' Hc' Hok Hsub Heq.
    destruct (Hm c' Hc' Hok) as (k' & Hk' & Hin).
    rewrite Hsub in Hin. congruence. }
  destruct (s_ok c) eqn:Hok.
  - split; [|by split].
    intros c' Hc' Hok'. simpl in Hc'. apply elem_of_cons in Hc' as [->|Hc'].
    + exists k. split; [done|]. rewrite get_set_heap_add.
      rewrite decide_True by done. set_solver.
    + destruct (Hm c' Hc' Hok') as (k' & Hk' & Hin). exists k'.
      split; [done|]. rewrite get_set_heap_add.
      destruct (decide (s_sub c = s_sub c')) as [Heq|]; [|done].
      rewrite <- Heq in Hin. set_solver.
  - split; [|by split].
    intros c' Hc' Hok'. simpl in Hc'. apply elem_of_cons in Hc' as [->|Hc'].
    + congruence.
    + by apply Hm.
Qed.

Lemma process_message_bookkeeping user_id email sub msg :
  preserves bookkeeping (process_message user_id email sub msg).
Proof.
  intros w Hw.
  destruct (process_message_cases user_id email sub msg w)
    as [->|(d & mid & k & -> & Hd & Ht & Hk & Hnew)]; [done|].
  rewrite (process_message_new _ _ _ _ _ _ _ Hd Ht Hk Hnew). simpl.
  by apply (bookkeeping_attempt user_id
              (attempt user_id email sub d mid (sink (length (send_log w))))).
Qed.

Lemma fetch_mailcx_bookkeeping email message_id :
  preserves bookkeeping (fetch_mailcx email message_id).
Proof. intros w Hw. rewrite fetch_mailcx_eq. by eapply bookkeeping_same. Qed.

Lemma poll_subscription_bookkeeping entry :
  preserves bookkeeping (poll_subscription entry).
Proof.
  destruct entry as [user_id data]. unfold poll_subscription.
  apply preserves_bind; [apply fetch_mailcx_bookkeeping|].
  intros mails. destruct (select_messages mails) as [messages|].
  - apply preserves_bind.
    + destruct messages; by intros w.
    + intros items. apply preserves_for_each.
      intros msg. apply process_message_bookkeeping.
  - apply preserves_ret.
Qed.

Lemma poll_tick_bookkeeping : preserves bookkeeping poll_tick.
Proof.
  apply preserves_bind; [by intros w|].
  intros snapshot. apply preserves_for_each, poll_subscription_bookkeeping.
Qed.



Lemma run_cons s a acts : run s (a :: acts) = run (step s a) acts.
Proof. done. Qed.



(** *** One subscription of a pass *)

Lemma select_messages_dict d :
  select_messages (PDict d) = dict_get d (lit "messages").
Proof.
  unfold select_messages, dict_has.
  destruct (dict_get d (lit "messages")) as [v|] eqn:Hd.
  - rewrite bool_decide_eq_true_2; [done|]. by exists v.
  - rewrite bool_decide_eq_false_2; [done|]. by intros [v Hv].
Qed.

Lemma poll_subscription_eq user_id mb w :
  let url := mailbox_url (email mb) None in
  poll_subscription (user_id, mb) w =
    match select_messages (fetched (provider (length (net_log w)) url)) with
    | Some messages =>
        (do items <- py_iter messages;
         for_each (process_message user_id (email mb) (seen mb)) items)
          (log_request url w)
    | None => (Ok tt, log_request url w)
    end.
Proof.
  simpl. unfold poll_subscription. unfold bind at 1.
  rewrite fetch_mailcx_eq. by destruct (select_messages _).
Qed.

Lemma process_message_framed reg net ui live user_id email sub msg :
  preserves (framed reg net ui live) (process_message user_id email sub msg).
Proof.
  intros w Hw.
  destruct (process_message_cases user_id email sub msg w)
    as [->|(d & mid & k & -> & Hd & Ht & Hk & Hnew)]; [done|].
  rewrite (process_message_new _ _ _ _ _ _ _ Hd Ht Hk Hnew). simpl.
  destruct Hw as (? & ? & ? & Hlive).
  destruct (sink _); repeat split; simpl; try done.
  rewrite dom_insert_L. set_solver.
Qed.

Lemma poll_subscription_framed reg net ui live user_id mb w :
  framed reg net ui live w →
  framed reg (mailbox_url (email mb) None :: net) ui live
         (poll_subscription (user_id, mb) w).2.
Proof.
  intros (Hreg & Hnet & Hui & Hlive). rewrite poll_subscription_eq. simpl.
  assert (Hw1 : framed reg (mailbox_url (email mb) None :: net) ui live
                  (log_request (mailbox_url (email mb) None) w)).
  { repeat split; simpl; congruence || done. }
  destruct (select_messages _) as [messages|]; [|done].
  revert Hw1. apply preserves_bind.
  - destruct messages; by intros w'.
  - intros items. apply preserves_for_each.
    intros msg. apply process_message_framed.
Qed.


(** C5: the messages of a payload are the [messages] field of an object
    that has one and the payload itself when it is a list; any other
    payload is handled as the empty list is: only the request is logged,
    and nothing is raised. *)
Theorem message_sequence_by_shape user_id mb w :
  let url := mailbox_url (email mb) None in
  let payload := fetched (provider (length (net_log w)) url) in
  let w1 := log_request url w in
  let deliver :=
    for_each (process_message user_id (email mb) (seen mb)) in
  (∀ d field, payload = PDict d →
     dict_get d (lit "messages") = Some field →
     poll_subscription (user_id, mb) w
       = (do items <- py_iter field; deliver items) w1
     ∧ ∀ msgs, field = PList msgs →
         poll_subscription (user_id, mb) w = deliver msgs w1)
  ∧ (∀ msgs, payload = PList msgs →
       poll_subscription (user_id, mb) w = deliver msgs w1)
  ∧ ((∀ d, payload = PDict d → dict_get d (lit "messages") = None) →
     (∀ msgs, payload ≠ PList msgs) →
     poll_subscription (user_id, mb) w = deliver [] w1
     ∧ deliver [] w1 = (Ok tt, w1)).
Proof.
  intros url payload w1 deliver.
  pose proof (poll_subscription_eq user_id mb w) as Heq. cbv zeta in Heq.
  subst deliver w1 payload url. split; [|split].
  - intros d field Hp Hf. rewrite Hp, select_messages_dict, Hf in Heq.
    split; [done|]. by intros msgs ->.
  - intros msgs Hp. by rewrite Hp in Heq.
  - intros Hd Hl. split; [|done]. rewrite Heq.
    destruct (fetched _) as [| | | |msgs|d]; try done.
    + by destruct (Hl msgs).
    + by rewrite select_messages_dict, (Hd d eq_refl).
Qed.

(** *** The view action *)

Lemma split1_no_sep s : SEP ∉ s → split1 s = [s].
Proof.
  induction s as [|c s IH]; intros Hs; [done|]. simpl.
  rewrite decide_False by set_solver. rewrite IH by set_solver. done.
Qed.

Lemma split1_sep a b : SEP ∉ a → split1 (a ++ SEP :: b) = [a; b].
Proof.
  induction a as [|c a IH]; intros Ha; simpl.
  - done.
  - rewrite decide_False by set_solver. rewrite IH by set_solver. done.
Qed.

Lemma first_sep s : SEP ∈ s → ∃ a b, s = a ++ SEP :: b ∧ SEP ∉ a.
Proof.
  induction s as [|c s IH]; intros Hs; [by apply elem_of_nil in Hs|].
  destruct (decide (c = SEP)) as [->|Hc].
  - exists [], s. split; [done|]. apply not_elem_of_nil.
  - apply elem_of_cons in Hs as [?|Hs]; [done|].
    destruct (IH Hs) as (a & b & -> & Ha). exists (c :: a), b.
    split; [done|]. intros [?|?]%elem_of_cons; congruence.
Qed.

Lemma callback_invalid data w :
  SEP ∉ data →
  callback_view_message data w = (Ok tt, log_text INVALID_DATA w).
Proof.
  intros Hs. unfold callback_view_message, query_answer, bind, ret,
    try_except, unpack2, show_text.
  by rewrite split1_no_sep.
Qed.

Lemma callback_valid address mid w :
  SEP ∉ address →
  let url := mailbox_url address (Some mid) in
  callback_view_message (address ++ SEP :: mid) w =
    (Ok tt,
     log_text (truncate (render (fetched (provider (length (net_log w)) url))))
              (log_request url w)).
Proof.
  intros Hs. cbv zeta.
  unfold callback_view_message, query_answer, bind, ret, try_except,
    unpack2, show_text.
  rewrite split1_sep by done. cbv beta iota delta [ret].
  by rewrite fetch_mailcx_eq.
Qed.

Lemma render_contains d :
  let subj := default NO_SUBJECT (dict_get d (lit "subject")) in
  let frm := default UNKNOWN (dict_get d (lit "from")) in
  let body := default NO_BODY (dict_get d (lit "body")) in
  contains (py_str subj) (render (PDict d))
  ∧ contains (py_str frm) (render (PDict d))
  ∧ contains (py_str body) (render (PDict d)).
Proof.
  cbv zeta. unfold render.
  set (S := py_str (default NO_SUBJECT _)).
  set (F := py_str (default UNKNOWN _)).
  set (B := py_str (default NO_BODY _)).
  split; [|split].
  - by eexists (lit "*Subject:* "), _.
  - exists (lit "*Subject:* " ++ S ++ NL ++ lit "*From:* "), (NL ++ NL ++ B).
    by rewrite <- !app_assoc.
  - exists (lit "*Subject:* " ++ S ++ NL ++ lit "*From:* " ++ F ++ NL ++ NL),
      [].
    rewrite <- !app_assoc. by rewrite app_nil_r.
Qed.

Lemma truncate_spec text :
  (length (truncate text) ≤ TEXT_LIMIT + length TRUNCATED)%nat
  ∧ ((length text ≤ TEXT_LIMIT)%nat → truncate text = text)
  ∧ ((TEXT_LIMIT < length text)%nat →
     truncate text = take TEXT_LIMIT text ++ TRUNCATED
     ∧ length (take TEXT_LIMIT text) = TEXT_LIMIT).
Proof.
  unfold truncate, slice_to.
  destruct (decide (TEXT_LIMIT < length text)%nat) as [Hlt|Hle].
  - assert (Htake : length (take TEXT_LIMIT text) = TEXT_LIMIT)
      by (rewrite length_take; lia).
    split; [|split]; [|lia|done].
    rewrite length_app, Htake. lia.
  - split; [|split]; [lia|done|lia].
Qed.

(** C6: a token without separator gets the invalid-data text, with no
    request made and nothing raised; a token with one makes exactly one
    request, for the address before the first separator and the id after
    it, and shows the text made of the subject, sender and body that came
    back, cut to its first 3800 characters followed by the marker when it
    is longer than that and shown whole when not. *)
Theorem view_action_renders data address mid w :
  SEP ∉ data → SEP ∉ address →
  callback_view_message data w = (Ok tt, log_text INVALID_DATA w)
  ∧ net_log (log_text INVALID_DATA w) = net_log w
  ∧ (let url := mailbox_url address (Some mid) in
     let got := fetched (provider (length (net_log w)) url) in
     let r := callback_view_message (address ++ SEP :: mid) w in
     r.1 = Ok tt
     ∧ net_log r.2 = url :: net_log w
     ∧ ui_log r.2 = truncate (render got) :: ui_log w
     ∧ (∀ d, got = PDict d →
          contains (py_str (default NO_SUBJECT (dict_get d (lit "subject"))))
                   (render got)
          ∧ contains (py_str (default UNKNOWN (dict_get d (lit "from"))))
                     (render got)
          ∧ contains (py_str (default NO_BODY (dict_get d (lit "body"))))
                     (render got))
     ∧ (length (truncate (render got))
          ≤ TEXT_LIMIT + length TRUNCATED)%nat
     ∧ ((length (render got) ≤ TEXT_LIMIT)%nat →
        truncate (render got) = render got)
     ∧ ((TEXT_LIMIT < length (render got))%nat →
        truncate (render got) = take TEXT_LIMIT (render got) ++ TRUNCATED
        ∧ length (take TEXT_LIMIT (render got)) = TEXT_LIMIT)).
Proof.
  intros Hdata Haddr. split; [by apply callback_invalid|]. split; [done|].
  cbv zeta. rewrite callback_valid by done. cbn [fst snd].
  split; [done|]. split; [done|]. split; [done|]. split.
  - intros d ->. apply render_contains.
  - apply truncate_spec.
Qed.

(** C9: a token with a separator is split at the first one only: the text
    before it is the address and all the rest, further separators
    included, is the message id, and the request for that pair is made;
    the invalid-data branch, which makes no request, is taken exactly by
    the tokens without separator. *)
Theorem view_token_split_at_first_separator address mid w :
  SEP ∉ address →
  split1 (address ++ SEP :: mid) = [address; mid]
  ∧ unpack2 (split1 (address ++ SEP :: mid)) w = (Ok (address, mid), w)
  ∧ net_log (callback_view_message (address ++ SEP :: mid) w).2
    = mailbox_url address (Some mid) :: net_log w
  ∧ (∀ data, SEP ∈ data →
       ∃ a b, data = a ++ SEP :: b ∧ (SEP ∉ a)
              ∧ callback_view_message data w
                ≠ (Ok tt, log_text INVALID_DATA w))
  ∧ (∀ data, callback_view_message data w = (Ok tt, log_text INVALID_DATA w)
             ↔ SEP ∉ data).
Proof.
  intros Haddr.
  assert (Hvalid : ∀ data, SEP ∈ data →
            ∃ a b, data = a ++ SEP :: b ∧ (SEP ∉ a)
                   ∧ callback_view_message data w
                     ≠ (Ok tt, log_text INVALID_DATA w)).
  { intros data Hin. destruct (first_sep data Hin) as (a & b & -> & Ha).
    exists a, b. split; [done|]. split; [done|].
    rewrite callback_valid by done. intros [= Hnet _].
    apply (f_equal length) in Hnet. simpl in Hnet. lia. }
  split; [by apply split1_sep|]. split; [by rewrite split1_sep|].
  split; [by rewrite callback_valid|]. split; [exact Hvalid|].
  intros data. split; [|apply callback_invalid].
  intros Heq Hin. by destruct (Hvalid data Hin) as (a & b & _ & _ & Hne).
Qed.

(** C10: when the request of a view action fails, the fetch gives the
    object with only the [error] field, and the handler shows the message
    made of the three placeholders, the same whatever the cause, and
    raises nothing. *)
Theorem view_action_fetch_failure_shows_placeholders address mid cause w :
  SEP ∉ address →
  provider (length (net_log w)) (mailbox_url address (Some mid))
    = TransportError cause →
  (fetch_mailcx address (Some mid) w).1
    = Ok (PDict [(lit "error", PStr cause)])
  ∧ callback_view_message (address ++ SEP :: mid) w
    = (Ok tt,
       log_text (lit "*Subject:* (no subject)" ++ NL
                 ++ lit "*From:* unknown" ++ NL ++ NL ++ lit "(no body)")
                (log_request (mailbox_url address (Some mid)) w)).
Proof.
  intros Haddr Hout. rewrite fetch_mailcx_eq, callback_valid by done.
  cbv zeta. rewrite Hout. split; reflexivity.
Qed.

(** *** The address generator *)

Lemma random_choice_elem {A} r (l : list A) d :
  l ≠ [] → random_choice r l d ∈ l.
Proof.
  intros Hl. unfold random_choice.
  assert (Hlt : (r `mod` length l < length l)%nat).
  { apply Nat.mod_upper_bound. by destruct l. }
  destruct (lookup_lt_is_Some_2 _ _ Hlt) as [x Hx]. rewrite Hx. simpl.
  by eapply list_elem_of_lookup_2.
Qed.

Lemma lowercase_is_lower c : c ∈ ascii_lowercase → is_lower c = true.
Proof.
  intros Hc.
  assert (H : Forall (λ c, is_lower c = true) ascii_lowercase)
    by (vm_compute; repeat constructor).
  rewrite Forall_forall in H. by apply H.
Qed.

Lemma alphabet_is_alnum c :
  c ∈ ascii_lowercase ++ digits → is_lower c || is_digit c = true.
Proof.
  intros Hc.
  assert (H : Forall (λ c, is_lower c || is_digit c = true)
                (ascii_lowercase ++ digits))
    by (vm_compute; repeat constructor).
  rewrite Forall_forall in H. by apply H.
Qed.

(** *** The registry *)

Lemma dict_set_keys {V} (d : list (Z * V)) k v :
  (dict_set d k v).*1 = if decide (k ∈ d.*1) then d.*1 else d.*1 ++ [k].
Proof.
  induction d as [|[k' x] d IH]; [done|]. cbn [dict_set].
  destruct (decide (k' = k)) as [->|Hne]; rewrite !fmap_cons; cbn [fst].
  - rewrite decide_True; [done|]. apply elem_of_cons. by left.
  - rewrite IH. destruct (decide (k ∈ d.*1)) as [Hin|Hin].
    + rewrite decide_True; [done|]. apply elem_of_cons. by right.
    + rewrite decide_False; [done|].
      intros [?|?]%elem_of_cons; congruence.
Qed.

Lemma dict_set_NoDup {V} (d : list (Z * V)) k v :
  NoDup d.*1 → NoDup (dict_set d k v).*1.
Proof.
  intros Hd. rewrite dict_set_keys. destruct (decide (k ∈ d.*1)); [done|].
  apply NoDup_app. split; [done|]. split; [|apply NoDup_singleton].
  intros x Hx ->%list_elem_of_singleton. done.
Qed.

Lemma elem_of_dict_set {V} (d : list (Z * V)) k v k' x :
  NoDup d.*1 →
  (k', x) ∈ dict_set d k v ↔ (k' = k ∧ x = v) ∨ (k' ≠ k ∧ (k', x) ∈ d).
Proof.
  induction d as [|[k0 x0] d IH]; simpl; intros Hd.
  - rewrite list_elem_of_singleton. split.
    + intros [= -> ->]. by left.
    + intros [[-> ->]|[_ H]]; [done|]. by apply elem_of_nil in H.
  - apply NoDup_cons in Hd as [Hk0 Hd].
    destruct (decide (k0 = k)) as [->|Hne].
    + rewrite !elem_of_cons. split.
      * intros [[= -> ->]|Hin]; [by left|]. right. split; [|by right].
        intros ->. apply Hk0. by apply (list_elem_of_fmap_2 fst _ (k, x)).
      * intros [[-> ->]|[Hne [[= -> ->]|Hin]]]; [by left|done|by right].
    + rewrite !elem_of_cons, (IH Hd). split.
      * intros [[= -> ->]|[[-> ->]|[? ?]]];
          [right; split; [done|by left]|by left|right; split; [done|by right]].
      * intros [[-> ->]|[? [[= -> ->]|?]]];
          [right; by left|by left|right; right; by split].
Qed.



Lemma entries_of_dict_set_other user_id (d : list (Z * mailbox)) k mb :
  k ≠ user_id → entries_of user_id (dict_set d k mb) = entries_of user_id d.
Proof.
  intros Hne. unfold entries_of. induction d as [|[k' x] d IH]; simpl.
  - by rewrite filter_cons_False.
  - destruct (decide (k' = k)) as [->|Hk].
    + by rewrite !filter_cons_False.
    + rewrite !filter_cons. simpl. by rewrite IH.
Qed.

(** What each action does to the registry and to the sets that exist. *)
Lemma cmd_generate_world user_id rnd w :
  let l := fresh (dom (heap w)) in
  let w' := (cmd_generate user_id rnd w).2 in
  USER_MAILBOXES w'
    = dict_set (USER_MAILBOXES w) user_id
        (Mailbox (address_of (make_random_username rnd)) l)
  ∧ heap w' = <[l := ∅]> (heap w)
  ∧ l ∉ dom (heap w).
Proof. repeat split. apply is_fresh. Qed.

Lemma callback_view_message_world data w :
  let w' := (callback_view_message data w).2 in
  USER_MAILBOXES w' = USER_MAILBOXES w ∧ heap w' = heap w.
Proof.
  destruct (decide (SEP ∈ data)) as [Hin|Hin].
  - destruct (first_sep data Hin) as (a & b & -> & Ha).
    cbv zeta. by rewrite callback_valid.
  - cbv zeta. by rewrite callback_invalid.
Qed.

Lemma poll_subscription_world entry w :
  let w' := (poll_subscription entry w).2 in
  USER_MAILBOXES w' = USER_MAILBOXES w ∧ dom (heap w) ⊆ dom (heap w').
Proof.
  destruct entry as [user_id mb].
  destruct (poll_subscription_framed (USER_MAILBOXES w) (net_log w)
              (ui_log w) (dom (heap w)) user_id mb w)
    as (? & _ & _ & ?); by repeat split.
Qed.

Lemma step_world s a :
  let w := sys_world s in
  let w' := sys_world (step s a) in
  match a with
  | Generate user_id rnd =>
      let l := fresh (dom (heap w)) in
      USER_MAILBOXES w'
        = dict_set (USER_MAILBOXES w) user_id
            (Mailbox (address_of (make_random_username rnd)) l)
      ∧ heap w' = <[l := ∅]> (heap w) ∧ l ∉ dom (heap w)
  | _ => USER_MAILBOXES w' = USER_MAILBOXES w
         ∧ dom (heap w) ⊆ dom (heap w')
  end.
Proof.
  destruct a as [u rnd|data|]; cbv zeta.
  - apply cmd_generate_world.
  - destruct (callback_view_message_world data (sys_world s)) as [H1 H2].
    simpl. by rewrite H1, H2.
  - simpl. unfold poll_step.
    destruct (poll_task s) as [|[|entry rest]|e]; try done.
    pose proof (poll_subscription_world entry (sys_world s)) as H.
    cbv zeta in H.
    by destruct (poll_subscription entry (sys_world s)) as [[[]|e] w'].
Qed.

Lemma step_registry_ok s a :
  registry_ok (sys_world s) → registry_ok (sys_world (step s a)).
Proof.
  intros [Hnd Hlive]. pose proof (step_world s a) as H. cbv zeta in H.
  destruct a as [u rnd|data|].
  - destruct H as (Hreg & Hheap & Hfresh). split.
    + rewrite Hreg. by apply dict_set_NoDup.
    + intros u' mb. rewrite Hreg, Hheap, dom_insert_L.
      intros [[-> ->]|[_ Hin]]%elem_of_dict_set; [|apply Hlive in Hin|done].
      * simpl. set_solver.
      * set_solver.
  - destruct H as [Hreg Hdom]. split; rewrite Hreg; [done|].
    intros u' mb Hin. apply Hdom. by eapply Hlive.
  - destruct H as [Hreg Hdom]. split; rewrite Hreg; [done|].
    intros u' mb Hin. apply Hdom. by eapply Hlive.
Qed.


Lemma boot_registry_ok : registry_ok (sys_world boot).
Proof.
  split; [constructor|]. intros u mb Hin. by apply elem_of_nil in Hin.
Qed.





Lemma dict_set_elem {V} (d : list (Z * V)) k v : (k, v) ∈ dict_set d k v.
Proof.
  induction d as [|[k' x] d IH]; cbn [dict_set].
  - by apply list_elem_of_singleton.
  - destruct (decide (k' = k)) as [->|Hne]; apply elem_of_cons; auto.
Qed.

(** C8: the local part of a generated address has 6 or 7 characters, the
    first a lowercase letter and all of them lowercase letters or digits,
    and the address registered and shown is the local part followed by
    the domain suffix. *)
Theorem generated_address_shape rnd user_id w :
  let username := make_random_username rnd in
  let address := username ++ lit "@nqmo.com" in
  let w' := (cmd_generate user_id rnd w).2 in
  (length username = 6 ∨ length username = 7)%nat
  ∧ (∃ c rest, username = c :: rest ∧ is_lower c = true)
  ∧ Forall (λ c, is_lower c || is_digit c = true) username
  ∧ (∃ l, (user_id, Mailbox address l) ∈ USER_MAILBOXES w')
  ∧ ui_log w' = generate_reply address :: ui_log w.
Proof.
  cbv zeta. unfold make_random_username.
  set (len := random_choice (rnd 0%nat) [USERNAME_MIN; USERNAME_MAX] 0%nat).
  set (first := random_choice (rnd 1%nat) ascii_lowercase 0%N).
  set (rest := _ <$> seq 0 (len - 1)).
  assert (Hlen : len = 6%nat ∨ len = 7%nat).
  { assert (H : len ∈ [USERNAME_MIN; USERNAME_MAX])
      by (by apply random_choice_elem).
    apply elem_of_cons in H as [H|H]; [by left|].
    apply list_elem_of_singleton in H. by right. }
  assert (Hfirst : is_lower first = true).
  { apply lowercase_is_lower. by apply random_choice_elem. }
  split; [|split; [|split; [|split]]].
  - cbn [length]. subst rest. rewrite length_fmap, length_seq. lia.
  - by exists first, rest.
  - constructor; [by rewrite Hfirst|].
    subst rest. apply Forall_fmap, Forall_forall. intros i _.
    apply alphabet_is_alnum. by apply random_choice_elem.
  - eexists. apply dict_set_elem.
  - done.
Qed.


(** *** What the loop does not catch *)

Lemma crashed_stays_crashed n s e :
  poll_task s = Crashed e → run s (replicate n Poll) = s.
Proof.
  intros Hs. induction n as [|n IH]; [done|].
  cbn [replicate]. unfold run in *. cbn [foldl].
  replace (step s Poll) with s; [done|]. simpl. unfold poll_step.
  by rewrite Hs.
Qed.

(** Left to itself, the task makes the pass [poll_tick] describes. *)
Lemma polling_uninterrupted pending w :
  run (System w (Polling pending)) (replicate (S (length pending)) Poll)
  = System (for_each poll_subscription pending w).2
      (match (for_each poll_subscription pending w).1 with
       | Ok _ => Idle
       | Raise e => Crashed e
       end).
Proof.
  revert w. induction pending as [|entry rest IH]; intros w; [done|].
  change (replicate (S (length (entry :: rest))) Poll)
    with (Poll :: replicate (S (length rest)) Poll).
  rewrite run_cons. cbn [for_each step]. unfold bind, poll_step.
  cbn [poll_task sys_world].
  destruct (poll_subscription entry w) as [[[]|e] w1].
  - apply IH.
  - by erewrite crashed_stays_crashed.
Qed.

Lemma pass_uninterrupted w :
  run (System w Idle) (replicate (S (S (length (USER_MAILBOXES w)))) Poll)
  = System (poll_tick w).2
      (match (poll_tick w).1 with
       | Ok _ => Idle
       | Raise e => Crashed e
       end).
Proof.
  change (replicate (S (S (length (USER_MAILBOXES w)))) Poll)
    with (Poll :: replicate (S (length (USER_MAILBOXES w))) Poll).
  rewrite run_cons. apply (polling_uninterrupted (USER_MAILBOXES w) w).
Qed.

(** Nothing is raised by a message that is an object whose id is absent,
    empty or hashable, whatever the delivery sink does. *)
Lemma process_message_returns user_id address sub d w :
  let mid := default PNone (dict_get d (lit "id")) in
  py_truthy mid = false ∨ is_Some (py_hash mid) →
  (process_message user_id address sub (PDict d) w).1 = Ok tt.
Proof.
  cbv zeta. intros Hmid.
  destruct (py_truthy (default PNone (dict_get d (lit "id")))) eqn:Ht.
  - destruct Hmid as [?|[k Hk]]; [done|].
    destruct (dict_get d (lit "id")) as [mid|] eqn:Hd; [|done].
    simpl in *. destruct (decide (k ∈ get_set w sub)).
    + by erewrite process_message_seen.
    + by erewrite process_message_new.
  - by rewrite process_message_falsy.
Qed.


End Properties.

(** *** Instances on the sample inputs *)

Lemma message_without_id_skipped_witness :
  dict_get [(lit "subject", PStr (lit "Hi"))] (lit "id") = None
  ∧ process_message sample_repr sink_ok 42 addr_abc123 0%nat
      (PDict [(lit "subject", PStr (lit "Hi"))]) world_42
    = (Ok tt, world_42).
Proof.
  split; [reflexivity|].
  apply (message_without_id_skipped sample_repr sink_ok 42 addr_abc123 0%nat
           [(lit "subject", PStr (lit "Hi"))] world_42 []).
  left. reflexivity.
Defined.




Lemma message_sequence_by_shape_witness :
  fetched (provider_m1 (length (net_log world_42))
             (mailbox_url addr_abc123 None))
    = PDict [(lit "messages", PList [PDict msg_m1])]
  ∧ poll_subscription sample_repr provider_m1 sink_ok
      (42, Mailbox addr_abc123 0%nat) world_42
    = for_each (process_message sample_repr sink_ok 42 addr_abc123 0%nat)
        [PDict msg_m1] (log_request (mailbox_url addr_abc123 None) world_42).
Proof.
  split; [reflexivity|].
  destruct (message_sequence_by_shape sample_repr provider_m1 sink_ok 42
              (Mailbox addr_abc123 0%nat) world_42) as [H _].
  by apply (H [(lit "messages", PList [PDict msg_m1])]
              (PList [PDict msg_m1]) eq_refl eq_refl).
Defined.

(** C2 fails on the code: with two subscribers registered, a provider
    answer [["oops"]] for the first makes the pass raise [AttributeError];
    the second subscriber is not queried, and the task is dead from then
    on.  An answer [{"messages": null}] does the same with [TypeError]. *)
Theorem malformed_entry_aborts_poll_loop :
  let acts := [Generate 1 rnd_abc123; Generate 2 rnd_abc123; Poll; Poll] in
  let s := run sample_repr provider_oops sink_ok boot acts in
  length (USER_MAILBOXES (sys_world s)) = 2%nat
  ∧ poll_task s = Crashed AttributeError
  ∧ net_log (sys_world s) = [mailbox_url addr_abc123 None]
  ∧ (∀ n, run sample_repr provider_oops sink_ok s (replicate n Poll) = s)
  ∧ poll_task (run sample_repr provider_null sink_ok boot acts)
    = Crashed TypeError
  ∧ (∀ n, (poll_inboxes sample_repr provider_oops sink_ok (S n) world_42).1
          = Raise AttributeError).
Proof.
  cbv zeta.
  assert (H : poll_task (run sample_repr provider_oops sink_ok boot
                [Generate 1 rnd_abc123; Generate 2 rnd_abc123; Poll; Poll])
              = Crashed AttributeError) by (vm_compute; reflexivity).
  split; [vm_compute; reflexivity|]. split; [exact H|].
  split; [vm_compute; reflexivity|]. split; [|split].
  - intros n. by eapply crashed_stays_crashed.
  - vm_compute. reflexivity.
  - intros n. reflexivity.
Qed.

Lemma view_action_renders_witness :
  ((SEP ∉ lit "garbage") ∧ (SEP ∉ addr_abc123))
  ∧ callback_view_message sample_repr provider_sfb (lit "garbage") empty_world
    = (Ok tt, log_text INVALID_DATA empty_world)
  ∧ ui_log (callback_view_message sample_repr provider_sfb
              (addr_abc123 ++ SEP :: lit "m1") empty_world).2
    = [lit "*Subject:* S" ++ NL ++ lit "*From:* F" ++ NL ++ NL ++ lit "B"].
Proof.
  assert (Hg : SEP ∉ lit "garbage")
    by (apply (bool_decide_unpack _); vm_compute; exact I).
  assert (Ha : SEP ∉ addr_abc123)
    by (apply (bool_decide_unpack _); vm_compute; exact I).
  split; [by split|].
  destruct (view_action_renders sample_repr provider_sfb (lit "garbage")
              addr_abc123 (lit "m1") empty_world Hg Ha)
    as (Hinvalid & _ & _ & _ & Hshown & _).
  split; [exact Hinvalid|]. rewrite Hshown. vm_compute. reflexivity.
Defined.

Lemma view_token_split_at_first_separator_witness :
  (SEP ∉ lit "a@b")
  ∧ split1 (lit "a@b|m|1") = [lit "a@b"; lit "m|1"].
Proof.
  assert (Ha : SEP ∉ lit "a@b")
    by (apply (bool_decide_unpack _); vm_compute; exact I).
  split; [exact Ha|].
  destruct (view_token_split_at_first_separator sample_repr provider_sfb
              (lit "a@b") (lit "m|1") empty_world Ha) as [Hsplit _].
  exact Hsplit.
Defined.

Lemma view_action_fetch_failure_shows_placeholders_witness :
  ((SEP ∉ addr_abc123)
   ∧ provider_timeout (length (net_log empty_world))
       (mailbox_url addr_abc123 (Some (lit "m1")))
     = TransportError (lit "TimeoutError"))
  ∧ ui_log (callback_view_message sample_repr provider_timeout
              (addr_abc123 ++ SEP :: lit "m1") empty_world).2
    = [lit "*Subject:* (no subject)" ++ NL ++ lit "*From:* unknown"
         ++ NL ++ NL ++ lit "(no body)"].
Proof.
  assert (Ha : SEP ∉ addr_abc123)
    by (apply (bool_decide_unpack _); vm_compute; exact I).
  split; [by split|].
  destruct (view_action_fetch_failure_shows_placeholders sample_repr
              provider_timeout addr_abc123 (lit "m1") (lit "TimeoutError")
              empty_world Ha eq_refl) as [_ Hshown].
  by rewrite Hshown.
Defined.

(** *** The scenarios of the specification *)

(** Subscriber 42, one message [m1]: the first pass notifies once, with
    [Hi] in the text, and records [m1]; the second pass notifies no more. *)
Example scenario_notify_once :
  let tick := poll_tick sample_repr provider_m1 sink_ok in
  let w1 := (tick world_42).2 in
  let w2 := (tick w1).2 in
  send_log w1
    = [attempt sample_repr 42 addr_abc123 0%nat msg_m1 (PStr (lit "m1")) true]
  ∧ contains (lit "Hi")
      (s_text (attempt sample_repr 42 addr_abc123 0%nat msg_m1
                 (PStr (lit "m1")) true))
  ∧ get_set w1 0%nat = {[KStr (lit "m1")]}
  ∧ send_log w2 = send_log w1.
Proof.
  cbv zeta. split; [vm_compute; reflexivity|]. split; [|split].
  - exists ([0x2709; 0xFE0F]%N ++ lit " *New Mail!*" ++ NL ++ NL
            ++ lit "*Subject:* "),
      (NL ++ lit "*From:* x@y.com" ++ NL ++ lit "*Date:* ").
    vm_compute. reflexivity.
  - vm_compute. reflexivity.
  - vm_compute. reflexivity.
Qed.

(** A notification that fails on the first pass is made again on the
    second, recorded once it went through, and not made a third time. *)
Example scenario_retry_until_success :
  let tick := poll_tick sample_repr provider_m1 sink_flaky in
  let w1 := (tick world_42).2 in
  let w2 := (tick w1).2 in
  let w3 := (tick w2).2 in
  (tick world_42).1 = Ok tt
  ∧ s_ok <$> send_log w1 = [false] ∧ get_set w1 0%nat = ∅
  ∧ s_ok <$> send_log w2 = [true; false]
  ∧ get_set w2 0%nat = {[KStr (lit "m1")]}
  ∧ send_log w3 = send_log w2.
Proof. cbv zeta. repeat split; vm_compute; reflexivity. Qed.

(** A timeout for a subscriber: no notification in this pass, the delivered
    set as before, and the query made again in the next pass. *)
Example scenario_timeout_skips :
  let tick := poll_tick sample_repr provider_timeout sink_ok in
  let w1 := (tick world_42).2 in
  let w2 := (tick w1).2 in
  (tick world_42).1 = Ok tt
  ∧ send_log w1 = [] ∧ get_set w1 0%nat = get_set world_42 0%nat
  ∧ net_log w1 = [mailbox_url addr_abc123 None]
  ∧ net_log w2 = [mailbox_url addr_abc123 None; mailbox_url addr_abc123 None].
Proof. cbv zeta. repeat split; vm_compute; reflexivity. Qed.

(** A generate request that arrives while a pass is under way: the pass
    still polls the entry of its snapshot, and the pass after it polls the
    new one only. *)
Example scenario_replaced_during_pass :
  let run := run sample_repr provider_timeout sink_ok in
  let s := run boot [Generate 7 rnd_abc123; Poll; Generate 7 rnd_zzzzzzz] in
  let old := mailbox_url (lit "abc123@nqmo.com") None in
  let new := mailbox_url (lit "zzzzzzz@nqmo.com") None in
  USER_MAILBOXES (sys_world s) = [(7, Mailbox (lit "zzzzzzz@nqmo.com") 1%nat)]
  ∧ poll_task s = Polling [(7, Mailbox (lit "abc123@nqmo.com") 0%nat)]
  ∧ net_log (sys_world (run s [Poll])) = [old]
  ∧ net_log (sys_world (run s [Poll; Poll; Poll; Poll])) = [new; old].
Proof. cbv zeta. repeat split; vm_compute; reflexivity. Qed.

(** ** Further properties of the code *)

Section Extras.

Variable py_repr : pyval → str.
Variable provider : nat → str → http_outcome.
Variable sink : nat → bool.

Abbreviation fetch_mailcx := (fetch_mailcx provider).
Abbreviation process_message := (process_message py_repr sink).
Abbreviation poll_subscription := (poll_subscription py_repr provider sink).
Abbreviation poll_tick := (poll_tick py_repr provider sink).
Abbreviation poll_step := (poll_step py_repr provider sink).
Abbreviation callback_view_message := (callback_view_message py_repr provider).
Abbreviation py_str := (py_str py_repr).
Abbreviation render := (render py_repr).
Abbreviation step := (step py_repr provider sink).
Abbreviation run := (run py_repr provider sink).

(** *** Percent-encoding and the request url *)

Lemma hex_digit_unreserved n : (n < 16)%N → unreserved (hex_digit n) = true.
Proof.
  intros Hn. destruct n as [|p]; [reflexivity|].
  do 4 (try destruct p as [p|p|]); try reflexivity; lia.
Qed.

Lemma utf8_bytes c : is_code_point c → Forall (λ b, (b < 256)%N) (utf8 c).
Proof.
  unfold is_code_point, utf8. intros Hc.
  assert (H64 : ∀ x, (x `mod` 64 < 64)%N) by (intros x; by apply N.mod_lt).
  destruct (N.ltb_spec c 0x80); [repeat constructor; lia|].
  destruct (N.ltb_spec c 0x800).
  { assert (c / 64 < 32)%N by (apply N.Div0.div_lt_upper_bound; lia).
    pose proof (H64 c). repeat constructor; lia. }
  destruct (N.ltb_spec c 0x10000).
  { assert (c / 4096 < 16)%N by (apply N.Div0.div_lt_upper_bound; lia).
    pose proof (H64 c). pose proof (H64 (c / 64)%N).
    repeat constructor; lia. }
  assert (c / 262144 < 5)%N by (apply N.Div0.div_lt_upper_bound; lia).
  pose proof (H64 c). pose proof (H64 (c / 64)%N).
  pose proof (H64 (c / 4096)%N). repeat constructor; lia.
Qed.

Lemma percent_url_safe b : (b < 256)%N → Forall url_safe (percent b).
Proof.
  intros Hb. unfold percent.
  apply Forall_cons; split; [by right|].
  apply Forall_cons; split.
  { left. apply hex_digit_unreserved, N.Div0.div_lt_upper_bound. lia. }
  apply Forall_cons; split; [|done].
  left. apply hex_digit_unreserved. by apply N.mod_lt.
Qed.

(** X1: whatever the text, its percent-encoding is made of letters, digits,
    [_.-~] and [%] only; it has no slash, so it is one path segment. *)
Theorem quote_url_safe s :
  Forall is_code_point s →
  Forall url_safe (quote s) ∧ 47%N ∉ quote s.
Proof.
  intros Hs.
  assert (H : Forall url_safe (quote s)).
  { unfold quote. apply Forall_bind. eapply Forall_impl; [exact Hs|].
    intros c Hc. simpl. destruct (unreserved c) eqn:Hu.
    - constructor; [by left|constructor].
    - apply Forall_bind. eapply Forall_impl; [by apply utf8_bytes|].
      intros b Hb. by apply percent_url_safe. }
  split; [done|]. intros Hin. rewrite Forall_forall in H.
  by destruct (H _ Hin) as [?|?].
Qed.

Lemma quote_unreserved s :
  Forall (λ c, unreserved c = true) s → quote s = s.
Proof.
  unfold quote. induction 1 as [|c s Hc _ IH]; [done|].
  rewrite bind_cons, IH, Hc. done.
Qed.

Lemma alnum_unreserved c :
  is_lower c || is_digit c = true → unreserved c = true.
Proof.
  unfold unreserved. intros [->| ->]%orb_true_iff; [done|].
  by rewrite !orb_true_r.
Qed.

Lemma username_alnum rnd :
  Forall (λ c, is_lower c || is_digit c = true) (make_random_username rnd).
Proof.
  unfold make_random_username. constructor.
  - rewrite lowercase_is_lower; [done|]. by apply random_choice_elem.
  - apply Forall_fmap, Forall_forall. intros i _.
    apply alphabet_is_alnum. by apply random_choice_elem.
Qed.

Lemma quote_generated rnd :
  quote (address_of (make_random_username rnd))
  = make_random_username rnd ++ lit "%40nqmo.com".
Proof.
  unfold address_of, quote. rewrite bind_app. f_equal.
  apply quote_unreserved. eapply Forall_impl; [apply username_alnum|].
  apply alnum_unreserved.
Qed.

(** X2: the mailbox of a generated address is queried at the base url
    followed by the local part and [%40nqmo.com], and two generated
    addresses are queried at the same url only if they are the same. *)
Theorem generated_address_url rnd rnd' :
  let username := make_random_username rnd in
  let username' := make_random_username rnd' in
  mailbox_url (address_of username) None
  = lit "https://mail.cx/api/api/v1/mailbox/" ++ username ++ lit "%40nqmo.com"
  ∧ (mailbox_url (address_of username) None
     = mailbox_url (address_of username') None → username = username').
Proof.
  cbv zeta.
  assert (H : ∀ r, mailbox_url (address_of (make_random_username r)) None
            = lit "https://mail.cx/api/api/v1/mailbox/"
                ++ make_random_username r ++ lit "%40nqmo.com").
  { intros r. unfold mailbox_url. rewrite quote_generated.
    replace (lit "https://mail.cx/api/api/v1/mailbox/")
      with (rstrip_slash MAILCX_API_BASE ++ lit "/")
      by (vm_compute; reflexivity).
    by rewrite <- app_assoc. }
  split; [apply H|]. rewrite !H. intros Heq.
  apply app_inv_head in Heq. by apply app_inv_tail in Heq.
Qed.

Lemma generated_no_separator rnd :
  SEP ∉ address_of (make_random_username rnd).
Proof.
  unfold address_of. rewrite !not_elem_of_app. split; [|split].
  - intros Hin. pose proof (username_alnum rnd) as H.
    rewrite Forall_forall in H. by specialize (H _ Hin).
  - apply (bool_decide_unpack _). vm_compute. exact I.
  - apply (bool_decide_unpack _). vm_compute. exact I.
Qed.

(** X3: the token the loop puts on the button of a notification is taken
    apart by the view handler into the address and the message id it was
    made from, whatever characters the id has, and the handler asks the
    provider for exactly that message. *)
Theorem button_token_round_trip rnd user_id sub d mid ok w :
  let address := address_of (make_random_username rnd) in
  let c := attempt py_repr user_id address sub d mid ok in
  split1 (s_data c) = [address; py_str mid]
  ∧ net_log (callback_view_message (s_data c) w).2
    = mailbox_url address (Some (py_str mid)) :: net_log w.
Proof.
  cbv zeta. unfold attempt. cbn [s_data].
  pose proof (generated_no_separator rnd) as Hsep.
  change (?a ++ [SEP] ++ ?b) with (a ++ SEP :: b).
  split; [by apply split1_sep|]. by rewrite callback_valid.
Qed.

(** *** What every move keeps *)

Lemma process_message_preserves (P : world → Prop) user_id address sub msg :
  (∀ w c k, P w → py_hash (s_mid c) = Some k → k ∉ get_set w (s_sub c) →
     P (if s_ok c then heap_add (s_sub c) k (log_send c w)
        else log_error (s_chat c) (log_send c w))) →
  preserves P (process_message user_id address sub msg).
Proof using py_repr sink.
  intros Hsend w Hw.
  destruct (process_message_cases py_repr sink user_id address sub msg w)
    as [->|(d & mid & k & -> & Hd & Ht & Hk & Hnew)]; [done|].
  rewrite (process_message_new _ _ _ _ _ _ _ _ _ Hd Ht Hk Hnew).
  cbv zeta. cbn [snd].
  by apply (Hsend w (attempt py_repr user_id address sub d mid
                       (sink (length (send_log w)))) k).
Qed.

Lemma poll_subscription_preserves (P : world → Prop) entry :
  (∀ url w, P w → P (log_request url w)) →
  (∀ w c k, P w → py_hash (s_mid c) = Some k → k ∉ get_set w (s_sub c) →
     P (if s_ok c then heap_add (s_sub c) k (log_send c w)
        else log_error (s_chat c) (log_send c w))) →
  preserves P (poll_subscription entry).
Proof.
  intros Hreq Hsend. destruct entry as [user_id data]. intros w Hw.
  rewrite poll_subscription_eq. cbv zeta.
  destruct (select_messages _) as [messages|]; [|by apply Hreq].
  assert (Hloop : preserves P
            (do items <- py_iter messages;
             for_each (process_message user_id (email data) (seen data))
                      items)).
  { apply preserves_bind; [destruct messages; by intros ?|].
    intros items. apply preserves_for_each.
    intros msg. by apply process_message_preserves. }
  apply Hloop. by apply Hreq.
Qed.

Lemma callback_view_message_effect data w :
  callback_view_message data w = (Ok tt, log_text INVALID_DATA w)
  ∨ ∃ url text,
      callback_view_message data w
      = (Ok tt, log_text text (log_request url w)).
Proof.
  destruct (decide (SEP ∈ data)) as [Hin|Hin].
  - destruct (first_sep data Hin) as (a & b & -> & Ha). right.
    eexists _, _. by apply callback_valid.
  - left. by apply callback_invalid.
Qed.

Lemma get_set_cmd_generate user_id rnd w l :
  get_set (cmd_generate user_id rnd w).2 l = get_set w l.
Proof. apply (get_set_new_set w l). Qed.

(** A property kept by each effect of the program is kept by every run. *)
Lemma run_preserves (P : world → Prop) :
  (∀ url w, P w → P (log_request url w)) →
  (∀ text w, P w → P (log_text text w)) →
  (∀ user_id rnd w, P w → P (cmd_generate user_id rnd w).2) →
  (∀ w c k, P w → py_hash (s_mid c) = Some k → k ∉ get_set w (s_sub c) →
     P (if s_ok c then heap_add (s_sub c) k (log_send c w)
        else log_error (s_chat c) (log_send c w))) →
  ∀ acts s, P (sys_world s) → P (sys_world (run s acts)).
Proof.
  intros Hreq Htext Hgen Hsend acts.
  induction acts as [|a acts IH]; intros s Hs; [done|].
  rewrite run_cons. apply IH. destruct a as [u rnd|data|]; cbn [step sys_world].
  - by apply Hgen.
  - destruct (callback_view_message_effect data (sys_world s))
      as [->|(url & text & ->)]; cbn [snd]; auto.
  - unfold poll_step. destruct (poll_task s) as [|[|entry rest]|e]; try done.
    pose proof (poll_subscription_preserves P entry Hreq Hsend _ Hs) as H.
    by destruct (poll_subscription entry (sys_world s)) as [[[]|e] w].
Qed.

(** X4: a delivered set never loses an id: whatever the handlers and the
    poll loop do, what a set holds at one time it holds at every later
    time. *)
Theorem delivered_sets_only_grow acts s l :
  get_set (sys_world s) l ⊆ get_set (sys_world (run s acts)) l.
Proof.
  apply (run_preserves (λ w, get_set (sys_world s) l ⊆ get_set w l));
    try done.
  - intros user_id rnd w Hw. by rewrite get_set_cmd_generate.
  - intros w c k Hw _ _. destruct (s_ok c); [|done].
    rewrite get_set_heap_add. case_decide; [subst l|done].
    change (get_set (log_send c w) (s_sub c)) with (get_set w (s_sub c)).
    set_solver.
Qed.

(** X5: every failed notification is logged, once and for its user, and
    nothing else is: in every run the error log lists the users of the
    failed [send_message] calls, in the order of the calls. *)
Theorem failed_sends_are_logged acts :
  let w := sys_world (run boot acts) in
  error_log w = failed_users (send_log w).
Proof.
  cbv zeta.
  apply (run_preserves (λ w, error_log w = failed_users (send_log w)));
    try done.
  intros w c k Hw _ _. unfold failed_users in *.
  destruct (s_ok c) eqn:Hok; cbn [error_log send_log heap_add log_send log_error].
  - rewrite filter_cons_False; [done|]. by rewrite Hok.
  - rewrite filter_cons_True by done. rewrite fmap_cons. by f_equal.
Qed.


(** *** When the loop lives and when it is dead *)

Lemma for_each_returns {A} (body : A → M unit) l w :
  Forall (λ x, ∀ w', (body x w').1 = Ok tt) l →
  (for_each body l w).1 = Ok tt.
Proof.
  intros Hl. revert w. induction Hl as [|x l Hx _ IH]; intros w; [done|].
  cbn [for_each]. unfold bind. specialize (Hx w).
  destruct (body x w) as [[[]|e] w1]; [apply IH|done].
Qed.

Lemma poll_subscription_returns user_id mb w :
  well_formed_payload
    (fetched (provider (length (net_log w)) (mailbox_url (email mb) None))) →
  (poll_subscription (user_id, mb) w).1 = Ok tt.
Proof.
  intros Hwf. rewrite poll_subscription_eq. cbv zeta.
  destruct Hwf as [->|(msgs & -> & Hmsgs)]; [done|].
  unfold bind, py_iter, ret. apply for_each_returns.
  eapply Forall_impl; [exact Hmsgs|].
  intros msg [[d ->] Hid] w'. by apply process_message_returns.
Qed.

(** X7: as long as every answer of the provider is a payload the loop can
    handle (one it skips, or a list of objects with hashable ids), the
    background task never ends, whatever the delivery sink does and
    however the handlers are interleaved with it. *)
Theorem well_formed_answers_never_crash acts :
  (∀ n url, well_formed_payload (fetched (provider n url))) →
  ∀ e, poll_task (run boot acts) ≠ Crashed e.
Proof.
  intros Hwf e.
  assert (H : ∀ s, (∀ x, poll_task s ≠ Crashed x) →
                ∀ x, poll_task (run s acts) ≠ Crashed x).
  { induction acts as [|a acts IH]; intros s Hs; [done|].
    rewrite run_cons. apply IH. destruct a as [u rnd|data|]; [done|done|].
    cbn [step]. unfold poll_step.
    destruct (poll_task s) as [|[|[user_id mb] rest]|x0] eqn:Ht; try done;
      [|by destruct (Hs x0)].
    pose proof (poll_subscription_returns user_id mb (sys_world s)
                  (Hwf _ _)) as Hret.
    destruct (poll_subscription (user_id, mb) (sys_world s))
      as [[[]|x1] w1]; done. }
  by apply H.
Qed.

(** X8: once the background task has ended on an exception it stays
    ended: whatever the handlers do afterwards, no notification is sent
    any more and no delivered set changes. *)
Theorem crash_is_final acts s e :
  poll_task s = Crashed e →
  poll_task (run s acts) = Crashed e
  ∧ send_log (sys_world (run s acts)) = send_log (sys_world s)
  ∧ (∀ l, get_set (sys_world (run s acts)) l = get_set (sys_world s) l).
Proof.
  revert s. induction acts as [|a acts IH]; intros s Hs; [done|].
  rewrite run_cons.
  assert (Hstep : poll_task (step s a) = Crashed e
            ∧ send_log (sys_world (step s a)) = send_log (sys_world s)
            ∧ ∀ l, get_set (sys_world (step s a)) l
                   = get_set (sys_world s) l).
  { destruct a as [u rnd|data|]; cbn [step poll_task sys_world].
    - repeat split; try done. intros l. apply get_set_cmd_generate.
    - destruct (callback_view_message_effect data (sys_world s))
        as [->|(url & text & ->)]; by repeat split.
    - unfold poll_step. by rewrite Hs. }
  destruct Hstep as (Ht & Hlog & Hset).
  destruct (IH _ Ht) as (Ht' & Hlog' & Hset').
  split; [done|]. split; [congruence|]. intros l. by rewrite Hset', Hset.
Qed.

(** *** The registry over a run *)

Lemma dict_set_subset {V} (d : list (Z * V)) k v x :
  x ∈ dict_set d k v → x = (k, v) ∨ x ∈ d.
Proof.
  induction d as [|[k0 x0] d IH]; cbn [dict_set].
  - intros ->%list_elem_of_singleton. by left.
  - destruct (decide (k0 = k)) as [->|Hne]; rewrite !elem_of_cons.
    + intros [->|?]; auto.
    + intros [->|[->|?]%IH]; auto.
Qed.

Lemma NoDup_fmap_dict_set {V B} (f : Z * V → B) (d : list (Z * V)) k v :
  NoDup (f <$> d) → f (k, v) ∉ f <$> d → NoDup (f <$> dict_set d k v).
Proof.
  induction d as [|[k0 x0] d IH]; cbn [dict_set]; intros Hd Hnew.
  - rewrite fmap_cons. apply NoDup_singleton.
  - rewrite fmap_cons in Hd, Hnew. apply NoDup_cons in Hd as [Hx0 Hd].
    apply not_elem_of_cons in Hnew as [Hne Hnew].
    destruct (decide (k0 = k)) as [->|Hk]; rewrite fmap_cons;
      apply NoDup_cons; split; auto.
    intros (y & Hy & [->|Hin]%dict_set_subset)%list_elem_of_fmap.
    + congruence.
    + apply Hx0. rewrite Hy. by apply list_elem_of_fmap_2.
Qed.

(** X9: a generate request changes nothing for the other subscribers:
    their entries and every existing delivered set stay as they were, and
    the order in which a pass takes the subscribers is kept, a new
    subscriber coming last and a known one keeping the place. *)
Theorem generate_keeps_other_subscribers user_id rnd w :
  let w' := (cmd_generate user_id rnd w).2 in
  (∀ other, other ≠ user_id →
     entries_of other (USER_MAILBOXES w') = entries_of other (USER_MAILBOXES w))
  ∧ (∀ l, get_set w' l = get_set w l)
  ∧ (USER_MAILBOXES w').*1
    = if decide (user_id ∈ (USER_MAILBOXES w).*1) then (USER_MAILBOXES w).*1
      else (USER_MAILBOXES w).*1 ++ [user_id].
Proof.
  cbv zeta. destruct (cmd_generate_world user_id rnd w) as (Hreg & _ & _).
  rewrite Hreg. split; [|split].
  - intros other Hne. by apply entries_of_dict_set_other.
  - intros l. apply get_set_cmd_generate.
  - apply dict_set_keys.
Qed.

Lemma step_registry_sound s a :
  registry_sound (sys_world s) → registry_sound (sys_world (step s a)).
Proof.
  intros (Hok & Hnd & Hgen).
  pose proof (step_registry_ok py_repr provider sink s a Hok) as Hok'.
  pose proof (step_world py_repr provider sink s a) as H. cbv zeta in H.
  split; [done|]. destruct a as [u rnd|data|].
  - destruct H as (-> & _ & Hfresh). split.
    + apply NoDup_fmap_dict_set; [done|]. cbn [snd seen].
      intros ([u' mb] & Hl & Hin)%list_elem_of_fmap. apply Hfresh.
      rewrite Hl. by apply (proj2 Hok u' mb).
    + apply Forall_forall. intros e [->|Hin]%dict_set_subset.
      * by exists rnd.
      * rewrite Forall_forall in Hgen. by apply Hgen.
  - by destruct H as [-> _].
  - by destruct H as [-> _].
Qed.

(** X10: in every run the registry has one entry per subscriber, no two
    entries share a delivered set, every delivered set it names exists,
    and every address in it is one the generator made. *)
Theorem registry_stays_sound acts :
  registry_sound (sys_world (run boot acts)).
Proof.
  assert (H : ∀ s, registry_sound (sys_world s) →
                registry_sound (sys_world (run s acts))).
  { induction acts as [|a acts IH]; intros s Hs; [done|].
    rewrite run_cons. by apply IH, step_registry_sound. }
  apply H. split; [apply boot_registry_ok|]. split; constructor.
Qed.

(** *** One pass *)


(** X12: the notifications a pass makes for a subscription go to its
    owner, carry the token made of its address and the message id, and
    come in the order of the provider's list, at most one per message. *)
Theorem notifications_in_provider_order user_id address sub msgs w :
  let r := for_each (process_message user_id address sub) msgs w in
  ∃ sent, send_log r.2 = sent ++ send_log w
    ∧ Forall (λ c, s_chat c = user_id ∧ s_sub c = sub
                   ∧ s_data c = address ++ [SEP] ++ py_str (s_mid c)) sent
    ∧ reverse (s_mid <$> sent) `sublist_of` (msg_id <$> msgs).
Proof.
  cbv zeta. revert w. induction msgs as [|msg msgs IH]; intros w.
  - exists []. repeat split; [constructor|]. by rewrite fmap_nil.
  - cbn [for_each]. unfold bind at 1. rewrite fmap_cons.
    destruct (process_message_cases py_repr sink user_id address sub msg w)
      as [Hsame|(d & mid & k & -> & Hd & Ht & Hk & Hnew)].
    + destruct (process_message user_id address sub msg w) as [[[]|e] w1];
        cbn [snd] in *; subst w1.
      * destruct (IH w) as (sent & Hlog & Hall & Hsub). exists sent.
        repeat split; [done|done|]. by apply sublist_cons.
      * exists []. repeat split; [constructor|]. apply sublist_nil_l.
    + rewrite (process_message_new _ _ _ _ _ _ _ _ _ Hd Ht Hk Hnew).
      cbv zeta.
      set (c := attempt py_repr user_id address sub d mid
                  (sink (length (send_log w)))).
      set (w1 := if sink (length (send_log w)) then _ else _).
      assert (Hw1 : send_log w1 = c :: send_log w)
        by (subst w1; by destruct (sink _)).
      destruct (IH w1) as (sent & Hlog & Hall & Hsub).
      exists (sent ++ [c]). split; [|split].
      * rewrite Hlog, Hw1. by rewrite <- app_assoc.
      * apply Forall_app. split; [done|]. by repeat constructor.
      * rewrite fmap_app, reverse_app. cbn [fmap list_fmap reverse].
        change (msg_id (PDict d)) with (default PNone (dict_get d (lit "id"))).
        rewrite Hd. by apply sublist_skip.
Qed.

Lemma process_message_keeps_marks user_id address sub msg l k :
  preserves (λ w, k ∈ get_set w l) (process_message user_id address sub msg).
Proof using py_repr sink.
  apply process_message_preserves. intros w c k' Hw _ _.
  destruct (s_ok c); [|done]. rewrite get_set_heap_add.
  case_decide; [subst l|done].
  change (get_set (log_send c w) (s_sub c)) with (get_set w (s_sub c)).
  by apply elem_of_union_r.
Qed.

Lemma for_each_all_seen user_id address sub msgs w :
  Forall well_formed_message msgs →
  (∀ msg k, msg ∈ msgs → py_truthy (msg_id msg) = true →
            py_hash (msg_id msg) = Some k → k ∈ get_set w sub) →
  for_each (process_message user_id address sub) msgs w = (Ok tt, w).
Proof using py_repr sink.
  induction 1 as [|msg msgs [[d ->] Hid] _ IH]; intros Hseen; [done|].
  cbn [for_each]. unfold bind.
  assert (Hskip : process_message user_id address sub (PDict d) w = (Ok tt, w)).
  { cbn [msg_id] in Hid.
    destruct (py_truthy (default PNone (dict_get d (lit "id")))) eqn:Ht.
    - destruct Hid as [?|[k Hk]]; [done|].
      destruct (dict_get d (lit "id")) as [mid|] eqn:Hd; [|done].
      apply (process_message_seen _ _ _ _ _ _ mid k w Hd Hk).
      apply (Hseen (PDict d) k); [by left| |]; cbn [msg_id]; by rewrite Hd.
    - by apply process_message_falsy. }
  rewrite Hskip. apply IH. intros msg k Hin. apply Hseen. by right.
Qed.

(** X13: with a delivery sink that does not fail, the loop over a list of
    well-formed messages returns normally with the id of every message in
    the delivered set, and going over the same list again then changes
    nothing: no further notification, no further mark. *)
Theorem working_sink_delivers_all_once user_id address sub msgs w :
  (∀ n, sink n = true) → Forall well_formed_message msgs →
  let r := for_each (process_message user_id address sub) msgs w in
  r.1 = Ok tt
  ∧ (∀ msg k, msg ∈ msgs → py_truthy (msg_id msg) = true →
              py_hash (msg_id msg) = Some k → k ∈ get_set r.2 sub)
  ∧ for_each (process_message user_id address sub) msgs r.2 = (Ok tt, r.2).
Proof using py_repr sink.
  intros Hsink Hwf. cbv zeta.
  assert (Hret : (for_each (process_message user_id address sub) msgs w).1
                 = Ok tt).
  { apply for_each_returns. eapply Forall_impl; [exact Hwf|].
    intros msg [[d ->] Hid] w'. by apply process_message_returns. }
  assert (Hall : ∀ msg k, msg ∈ msgs → py_truthy (msg_id msg) = true →
            py_hash (msg_id msg) = Some k →
            k ∈ get_set (for_each (process_message user_id address sub)
                           msgs w).2 sub).
  { clear Hret. revert w.
    induction Hwf as [|msg0 msgs [[d ->] Hid] _ IH]; intros w msg k Hin Ht Hk;
      [by apply elem_of_nil in Hin|].
    cbn [for_each]. unfold bind.
    pose proof (process_message_returns py_repr sink user_id address sub d w
                  Hid) as Hok.
    destruct (process_message user_id address sub (PDict d) w)
      as [[[]|e] w1] eqn:Hstep; [|done].
    apply elem_of_cons in Hin as [->|Hin]; [|by apply (IH w1 msg k)].
    apply (preserves_for_each (λ w', k ∈ get_set w' sub));
      [intros x; apply process_message_keeps_marks|].
    cbn [msg_id] in Ht, Hk.
    destruct (dict_get d (lit "id")) as [mid|] eqn:Hd; [|done].
    cbn [default] in Ht, Hk.
    destruct (decide (k ∈ get_set w sub)) as [Hseen|Hnew].
    - rewrite (process_message_seen _ _ _ _ _ _ _ _ _ Hd Hk Hseen) in Hstep.
      by injection Hstep as <-.
    - rewrite (process_message_new _ _ _ _ _ _ _ _ _ Hd Ht Hk Hnew) in Hstep.
      cbv zeta in Hstep. rewrite Hsink in Hstep. injection Hstep as <-.
      rewrite get_set_heap_add, decide_True by done.
      apply elem_of_union_l. by apply elem_of_singleton. }
  split; [done|]. split; [done|]. by apply for_each_all_seen.
Qed.

(** *** More of the view action and of the id test *)

(** X14: when the provider's answer to a view action is not JSON, the
    handler shows the text of the answer itself, cut like any other text,
    whatever the status of the response. *)
Theorem view_shows_text_body address mid status text w :
  SEP ∉ address →
  provider (length (net_log w)) (mailbox_url address (Some mid))
    = Response status text None →
  callback_view_message (address ++ SEP :: mid) w
  = (Ok tt,
     log_text (truncate text) (log_request (mailbox_url address (Some mid)) w)).
Proof.
  intros Haddr Hout. rewrite callback_valid by done. cbv zeta.
  by rewrite Hout.
Qed.

(** X15: a token that ends at its separator has an empty message id, and
    the handler then asks for the mailbox itself: the request is the one
    the poll loop makes for that address. *)
Theorem view_empty_id_requests_mailbox address w :
  SEP ∉ address →
  split1 (address ++ [SEP]) = [address; []]
  ∧ net_log (callback_view_message (address ++ [SEP]) w).2
    = mailbox_url address None :: net_log w.
Proof.
  intros Haddr. split; [by apply split1_sep|]. by rewrite callback_valid.
Qed.


(** *** The generator reaches every name of its shape *)

Lemma random_choice_lookup {A} (l : list A) i x d :
  l !! i = Some x → random_choice i l d = x.
Proof.
  intros Hi. unfold random_choice.
  rewrite Nat.mod_small by by eapply lookup_lt_Some. by rewrite Hi.
Qed.

Lemma lower_in_lowercase c : is_lower c = true → c ∈ ascii_lowercase.
Proof.
  unfold is_lower. intros [H1 H2]%andb_true_iff.
  apply N.leb_le in H1, H2.
  replace ascii_lowercase with ((λ j, (97 + N.of_nat j)%N) <$> seq 0 26)
    by (vm_compute; reflexivity).
  apply list_elem_of_fmap. exists (N.to_nat (c - 97)).
  split; [lia|]. apply elem_of_seq. lia.
Qed.

Lemma digit_in_digits c : is_digit c = true → c ∈ digits.
Proof.
  unfold is_digit. intros [H1 H2]%andb_true_iff.
  apply N.leb_le in H1, H2.
  replace digits with ((λ j, (48 + N.of_nat j)%N) <$> seq 0 10)
    by (vm_compute; reflexivity).
  apply list_elem_of_fmap. exists (N.to_nat (c - 48)).
  split; [lia|]. apply elem_of_seq. lia.
Qed.

Lemma alnum_indices rest :
  Forall (λ c, is_lower c || is_digit c = true) rest →
  ∃ idxs, Forall2 (λ i c, (ascii_lowercase ++ digits) !! i = Some c) idxs rest.
Proof.
  induction 1 as [|c rest Hc _ [idxs IH]]; [by exists []|].
  assert (Hin : c ∈ ascii_lowercase ++ digits).
  { apply elem_of_app. apply orb_true_iff in Hc as [?|?];
      [left; by apply lower_in_lowercase|right; by apply digit_in_digits]. }
  apply list_elem_of_lookup_1 in Hin as [i Hi].
  exists (i :: idxs). by constructor.
Qed.

(** X17: the generator can give every name of its shape: for a text of 6
    or 7 characters that starts with a lowercase letter and has lowercase
    letters and digits only, some draws of the random source make
    [make_random_username] return it. *)
Theorem every_shaped_username_is_generated first rest :
  (length rest = 5 ∨ length rest = 6)%nat →
  is_lower first = true →
  Forall (λ c, is_lower c || is_digit c = true) rest →
  ∃ rnd, make_random_username rnd = first :: rest.
Proof.
  intros Hlen Hfirst Hrest.
  destruct (alnum_indices rest Hrest) as [idxs Hidx].
  destruct (list_elem_of_lookup_1 _ _ (lower_in_lowercase first Hfirst))
    as [i0 Hi0].
  exists (λ n, match n with
               | O => (length rest - 5)%nat
               | S O => i0
               | S (S j) => default 0%nat (idxs !! j)
               end).
  unfold make_random_username.
  assert (Hchoice : random_choice (length rest - 5)
                      [USERNAME_MIN; USERNAME_MAX] 0%nat = S (length rest)).
  { by destruct Hlen as [-> | ->]. }
  rewrite Hchoice. f_equal; [by apply random_choice_lookup|].
  replace (S (length rest) - 1)%nat with (length rest) by lia.
  apply list_eq. intros j. rewrite list_lookup_fmap.
  destruct (rest !! j) as [c|] eqn:Hj.
  - rewrite lookup_seq_lt by by eapply lookup_lt_Some.
    destruct (Forall2_lookup_r _ _ _ _ _ Hidx Hj) as (i & Hi & Hc).
    cbn [fmap option_fmap option_map plus]. rewrite Hi. cbn [default].
    f_equal. by apply random_choice_lookup.
  - rewrite lookup_seq_ge; [done|]. by apply lookup_ge_None.
Qed.

End Extras.

(** *** Instances of the further properties *)

Lemma quote_url_safe_witness :
  Forall is_code_point addr_abc123
  ∧ Forall url_safe (quote addr_abc123).
Proof.
  assert (H : Forall is_code_point addr_abc123)
    by (apply (bool_decide_unpack _); vm_compute; exact I).
  split; [exact H|]. exact (proj1 (quote_url_safe addr_abc123 H)).
Defined.

Lemma generated_address_url_witness :
  mailbox_url (address_of (make_random_username rnd_abc123)) None
  = mailbox_url (address_of (make_random_username rnd_abc123)) None
  ∧ make_random_username rnd_abc123 = make_random_username rnd_abc123.
Proof.
  split; [reflexivity|].
  exact (proj2 (generated_address_url rnd_abc123 rnd_abc123) eq_refl).
Defined.

Lemma well_formed_answers_never_crash_witness :
  (∀ n url, well_formed_payload (fetched (provider_m1 n url)))
  ∧ poll_task (run sample_repr provider_m1 sink_flaky boot
                 [Generate 42 rnd_abc123; Poll; Poll; Poll; Poll; Poll])
    ≠ Crashed TypeError.
Proof.
  assert (H : ∀ n url, well_formed_payload (fetched (provider_m1 n url))).
  { intros n url. right. exists [PDict msg_m1]. split; [reflexivity|].
    constructor; [|constructor]. split; [by exists msg_m1|].
    right. by exists (KStr (lit "m1")). }
  split; [exact H|].
  exact (well_formed_answers_never_crash sample_repr provider_m1 sink_flaky
           _ H TypeError).
Defined.

Lemma crash_is_final_witness :
  let s := run sample_repr provider_oops sink_ok boot
             [Generate 1 rnd_abc123; Poll; Poll] in
  poll_task s = Crashed AttributeError
  ∧ poll_task (run sample_repr provider_oops sink_ok s
                 [Generate 2 rnd_zzzzzzz; Poll; Poll])
    = Crashed AttributeError.
Proof.
  cbv zeta.
  assert (H : poll_task (run sample_repr provider_oops sink_ok boot
                           [Generate 1 rnd_abc123; Poll; Poll])
              = Crashed AttributeError) by (vm_compute; reflexivity).
  split; [exact H|].
  exact (proj1 (crash_is_final sample_repr provider_oops sink_ok
                  [Generate 2 rnd_zzzzzzz; Poll; Poll] _ _ H)).
Defined.

Lemma working_sink_delivers_all_once_witness :
  ((∀ n, sink_ok n = true) ∧ Forall well_formed_message [PDict msg_m1])
  ∧ (for_each (process_message sample_repr sink_ok 42 addr_abc123 0%nat)
       [PDict msg_m1] world_42).1 = Ok tt.
Proof.
  assert (Hs : ∀ n, sink_ok n = true) by done.
  assert (Hm : Forall well_formed_message [PDict msg_m1]).
  { constructor; [|constructor]. split; [by exists msg_m1|].
    right. by exists (KStr (lit "m1")). }
  split; [by split|].
  exact (proj1 (working_sink_delivers_all_once sample_repr sink_ok 42
                  addr_abc123 0%nat [PDict msg_m1] world_42 Hs Hm)).
Defined.

Lemma view_shows_text_body_witness :
  ((SEP ∉ addr_abc123)
   ∧ provider_text (length (net_log empty_world))
       (mailbox_url addr_abc123 (Some (lit "m1")))
     = Response 404 (lit "Not Found") None)
  ∧ ui_log (callback_view_message sample_repr provider_text
              (addr_abc123 ++ SEP :: lit "m1") empty_world).2
    = [lit "Not Found"].
Proof.
  assert (Ha : SEP ∉ addr_abc123)
    by (apply (bool_decide_unpack _); vm_compute; exact I).
  split; [by split|].
  by rewrite (view_shows_text_body sample_repr provider_text addr_abc123
                (lit "m1") 404 (lit "Not Found") empty_world Ha eq_refl).
Defined.

Lemma view_empty_id_requests_mailbox_witness :
  (SEP ∉ addr_abc123)
  ∧ split1 (addr_abc123 ++ [SEP]) = [addr_abc123; []].
Proof.
  assert (Ha : SEP ∉ addr_abc123)
    by (apply (bool_decide_unpack _); vm_compute; exact I).
  split; [exact Ha|].
  exact (proj1 (view_empty_id_requests_mailbox sample_repr provider_text
                  addr_abc123 empty_world Ha)).
Defined.


Lemma every_shaped_username_is_generated_witness :
  ((length (lit "bc123") = 5 ∨ length (lit "bc123") = 6)%nat
   ∧ is_lower 97 = true
   ∧ Forall (λ c, is_lower c || is_digit c = true) (lit "bc123"))
  ∧ ∃ rnd, make_random_username rnd = 97%N :: lit "bc123".
Proof.
  assert (Hl : (length (lit "bc123") = 5 ∨ length (lit "bc123") = 6)%nat)
    by (by left).
  assert (Hr : Forall (λ c, is_lower c || is_digit c = true) (lit "bc123"))
    by (vm_compute; repeat constructor).
  split; [by repeat split|].
  exact (every_shaped_username_is_generated 97%N (lit "bc123") Hl eq_refl Hr).
Defined.
